(** * IndiSign backend: text and speech to sign-language video

    A shallow embedding of [backend/main.py]: the sign-image table and
    its loader, the text normalisation and the frame composer of
    [create_sign_video], the codec fallback loop, the temp-file handling
    of [speech_to_text] and the [/text-to-sign] request handler.

    Python state (the global [sign_images] dict, numpy arrays that are
    mutated in place, files on disk, calls into OpenCV) is threaded
    through a state-and-exception monad over a [world] record. Calls to
    the logger have no effect on any of this and are left out. *)

From Stdlib Require Import Ascii String ZArith QArith Lia.
From stdpp Require Import base option list gmap strings.

Local Open Scope Z_scope.

(** ** Python strings

    A Python [str] is a sequence of code points. The development covers
    the code points below 256 (Latin-1): [ascii] holds one such code
    point. On this range [str.lower] works character by character and
    stays inside the range. *)

Module PyStr.

Abbreviation str := (list ascii).

Definition ord (c : ascii) : N := N_of_ascii c.

Definition between (lo hi : N) (c : ascii) : bool :=
  ((lo <=? ord c) && (ord c <=? hi))%N.

(** [c.isalnum()]: letters (categories Lu, Ll, Lo) and numeric
    characters (Nd, No) of Latin-1. *)
Definition isalnum (c : ascii) : bool :=
  between 48 57 c || between 65 90 c || between 97 122 c
  || between 170 170 c || between 178 179 c || between 181 181 c
  || between 185 186 c || between 188 190 c || between 192 214 c
  || between 216 246 c || between 248 255 c.

(** [c.isspace()]: tab, LF, VT, FF, CR, the four separators FS GS RS US,
    space, NEL and the no-break space. *)
Definition isspace (c : ascii) : bool :=
  between 9 13 c || between 28 32 c || between 133 133 c
  || between 160 160 c.

(** [c.lower()] for one code point. *)
Definition lower_char (c : ascii) : ascii :=
  if between 65 90 c || between 192 214 c || between 216 222 c
  then ascii_of_N (ord c + 32)
  else c.

(** [s.lower()] *)
Definition lower (s : str) : str := map lower_char s.

(** [c.upper()], as a list of code points: three Latin-1 characters
    leave the range or expand (micro sign, sharp s, y with diaeresis). *)
Definition upper_char (c : ascii) : list N :=
  if (ord c =? 181)%N then [924%N]
  else if (ord c =? 223)%N then [83%N; 83%N]
  else if (ord c =? 255)%N then [376%N]
  else if between 97 122 c || between 224 246 c || between 248 254 c
  then [(ord c - 32)%N]
  else [ord c].

Fixpoint lstrip (s : str) : str :=
  match s with
  | c :: s' => if isspace c then lstrip s' else s
  | [] => []
  end.

Definition rstrip (s : str) : str := rev (lstrip (rev s)).

(** [s.strip()] *)
Definition strip (s : str) : str := rstrip (lstrip s).

(** Truth value of a string: [not s] holds for the empty string only. *)
Definition is_empty (s : str) : bool :=
  match s with [] => true | _ => false end.

Definition of_string (s : string) : str := list_ascii_of_string s.
Definition to_string (s : str) : string := string_of_list_ascii s.

End PyStr.
Import PyStr.

Notation "'py' s" := (of_string s%string) (at level 9, s at level 0, only parsing).

(** ** OpenCV arrays

    An image is the term of OpenCV calls that produced it; its pixel
    values are whatever OpenCV computes for that term. Only the shape
    is computed here. Images are colour images (three channels), as
    [cv2.imread] returns them by default. *)

Inductive ndarray : Type :=
| Imread (file : string) (h w : Z)
    (* the decoded contents of an image file of height h and width w *)
| Resize (src : ndarray) (width height : Z)
| Zeros (h w : Z)
| PutText (img : ndarray) (label : list N) (org : Z * Z)
          (color : Z * Z * Z) (thickness : Z)
    (* font FONT_HERSHEY_SIMPLEX at scale 1.2 *)
| AddWeighted (src1 : ndarray) (alpha : Q) (src2 : ndarray) (beta gamma : Q).

(** [img.shape[:2]], as (height, width). *)
Fixpoint shape (a : ndarray) : Z * Z :=
  match a with
  | Imread _ h w => (h, w)
  | Resize _ width height => (height, width)
  | Zeros h w => (h, w)
  | PutText img _ _ _ _ => shape img
  | AddWeighted src1 _ _ _ _ => shape src1
  end.

(** ** Exceptions and outcomes *)

Inductive exn : Type :=
| ValueError (msg : string)
| StopIteration
| SystemError (msg : string)
| Cv2Error (msg : string)
| AttributeError (msg : string)
| UnknownValueError
| RequestError (msg : string)
| OtherException (msg : string).

(** [str(e)] *)
Definition exn_str (e : exn) : string :=
  match e with
  | ValueError msg | SystemError msg | Cv2Error msg | AttributeError msg
  | RequestError msg | OtherException msg => msg
  | StopIteration | UnknownValueError => ""
  end.

Inductive outcome (A : Type) : Type :=
| Returns (a : A)
| Raises (e : exn).
Arguments Returns {A} a.
Arguments Raises {A} e.

(** ** The world: process memory and disk *)

Record video := Video {
  v_fourcc : Z;
  v_fps : Z;
  v_size : Z * Z;            (* (width, height) *)
  v_frames : list ndarray;
}.

Inductive file : Type :=
| VideoFile (v : video)
| WavFile (source : string)  (* mono 16 kHz re-encoding of that file *)
| UploadFile.

(** Calls on [cv2.VideoWriter] objects, in program order. *)
Inductive cv_event : Type :=
| Construct (fourcc : Z) (opened : bool)
| Release (fourcc : Z).

Record world := World {
  heap : list ndarray;              (* numpy arrays, by address *)
  sign_images : list (ascii * nat); (* the global dict, in insertion order *)
  fs : gmap string file;            (* files on disk, by path *)
  cv_log : list cv_event;
}.

Definition empty_world : world :=
  {| heap := []; sign_images := []; fs := ∅; cv_log := [] |}.

Definition set_heap (f : list ndarray → list ndarray) (w : world) : world :=
  {| heap := f (heap w); sign_images := sign_images w; fs := fs w;
     cv_log := cv_log w |}.
Definition set_sign_images (f : list (ascii * nat) → list (ascii * nat))
    (w : world) : world :=
  {| heap := heap w; sign_images := f (sign_images w); fs := fs w;
     cv_log := cv_log w |}.
Definition set_fs (f : gmap string file → gmap string file) (w : world) : world :=
  {| heap := heap w; sign_images := sign_images w; fs := f (fs w);
     cv_log := cv_log w |}.
Definition set_cv_log (f : list cv_event → list cv_event) (w : world) : world :=
  {| heap := heap w; sign_images := sign_images w; fs := fs w;
     cv_log := f (cv_log w) |}.

(** ** The monad of Python statements *)

Definition M (A : Type) : Type := world → outcome A * world.

#[global] Instance M_ret : MRet M := λ A a w, (Returns a, w).
#[global] Instance M_bind : MBind M := λ A B k m w,
  match m w with
  | (Returns a, w') => k a w'
  | (Raises e, w') => (Raises e, w')
  end.

Definition raise {A} (e : exn) : M A := λ w, (Raises e, w).
Definition get : M world := λ w, (Returns w, w).
Definition modify (f : world → world) : M unit := λ w, (Returns tt, f w).
Definition lift {A} (o : outcome A) : M A := λ w, (o, w).

(** [try: body finally: cleanup] *)
Definition try_finally {A} (body : M A) (cleanup : M unit) : M A := λ w,
  let '(r, w1) := body w in
  match cleanup w1 with
  | (Returns _, w2) => (r, w2)
  | (Raises e, w2) => (Raises e, w2)
  end.

(** [for x in xs: body(x)] *)
Fixpoint for_each {A} (xs : list A) (body : A → M unit) : M unit :=
  match xs with
  | [] => mret tt
  | x :: xs' => body x ;; for_each xs' body
  end.

(** [range(n)] for a Python int [n] *)
Definition range (n : Z) : list Z := map Z.of_nat (seq 0 (Z.to_nat n)).

(** [enumerate(xs)] *)
Fixpoint enumerate_from {A} (i : Z) (xs : list A) : list (Z * A) :=
  match xs with
  | [] => []
  | x :: xs' => (i, x) :: enumerate_from (i + 1) xs'
  end.
Definition enumerate {A} (xs : list A) : list (Z * A) := enumerate_from 0 xs.

(** *** Dicts in insertion order *)

Fixpoint dict_get {V} (k : ascii) (d : list (ascii * V)) : option V :=
  match d with
  | [] => None
  | (k', v) :: d' => if decide (k = k') then Some v else dict_get k d'
  end.

(** [d[k] = v]: an existing key keeps its position. *)
Fixpoint dict_set {V} (k : ascii) (v : V) (d : list (ascii * V)) : list (ascii * V) :=
  match d with
  | [] => [(k, v)]
  | (k', v') :: d' =>
      if decide (k = k') then (k, v) :: d' else (k', v') :: dict_set k v d'
  end.

(** [k in d] *)
Definition dict_mem {V} (k : ascii) (d : list (ascii * V)) : bool :=
  match dict_get k d with Some _ => true | None => false end.

(** *** Arrays on the heap *)

Definition alloc (a : ndarray) : M nat := λ w,
  (Returns (length (heap w)), set_heap (λ h, h ++ [a]) w).

Definition deref (l : nat) : M ndarray := λ w,
  match heap w !! l with
  | Some a => (Returns a, w)
  | None => (Raises (SystemError "dangling array reference"), w)
  end.

(** In-place update of the array at address [l]. *)
Definition update (l : nat) (f : ndarray → ndarray) : M unit := λ w,
  match heap w !! l with
  | Some a => (Returns tt, set_heap (λ h, <[l := f a]> h) w)
  | None => (Raises (SystemError "dangling array reference"), w)
  end.

(** ** What the program reads from its surroundings

    The contents of the signs folder, OpenCV's font metrics, which
    codecs the OpenCV build can open a writer for, and the clock and
    random source behind the output file name. *)

Record env := Env {
  signs_dir : string → option (Z * Z);
    (* by file name: the (height, width) of an image file that exists
       and that cv2.imread decodes; None otherwise *)
  getTextSize : list N → Z * Z;
    (* cv2.getTextSize(label, FONT_HERSHEY_SIMPLEX, 1.2, 3)[0] *)
  opens : Z → bool;
    (* whether a VideoWriter built with this fourcc is opened *)
  now : string;     (* datetime.now().strftime('%Y%m%d_%H%M%S') *)
  uuid8 : string;   (* uuid.uuid4().hex[:8] *)
}.

(** ** OpenCV calls *)

(** [cv2.resize(img, (width, height))] *)
Definition resize (img : ndarray) (dsize : Z * Z) : ndarray :=
  Resize img dsize.1 dsize.2.

(** [np.zeros((h, w, 3), dtype=np.uint8)] *)
Definition zeros (h w : Z) : ndarray := Zeros h w.

(** [cv2.addWeighted(src1, alpha, src2, beta, gamma)]: the two arrays
    must have the same shape. *)
Definition addWeighted (src1 : ndarray) (alpha : Q) (src2 : ndarray)
    (beta gamma : Q) : M ndarray :=
  if decide (shape src1 = shape src2)
  then mret (AddWeighted src1 alpha src2 beta gamma)
  else raise (Cv2Error "Sizes of input arguments do not match").

(** [cv2.putText(frame, label, org, FONT_HERSHEY_SIMPLEX, 1.2, color,
    thickness)] draws on the array at address [frame]. *)
Definition putText (frame : nat) (label : list N) (org : Z * Z)
    (color : Z * Z * Z) (thickness : Z) : M unit :=
  update frame (λ a, PutText a label org color thickness).

(** [cv2.VideoWriter_fourcc(c1, c2, c3, c4)] *)
Definition VideoWriter_fourcc (code : string) : Z :=
  match of_string code with
  | [c1; c2; c3; c4] =>
      Z.lor (Z.lor (Z.lor (Z.of_N (ord c1)) (Z.shiftl (Z.of_N (ord c2)) 8))
                   (Z.shiftl (Z.of_N (ord c3)) 16))
            (Z.shiftl (Z.of_N (ord c4)) 24)
  | _ => -1
  end.

Record writer_t := Writer {
  wr_path : string;
  wr_fourcc : Z;
  wr_opened : bool;
}.

(** [cv2.VideoWriter(path, fourcc, fps, (w, h))]: when the writer opens
    it creates (or truncates) the file at [path]; a writer that does not
    open is taken to leave the disk as it is. *)
Definition VideoWriter (e : env) (path : string) (fourcc fps : Z)
    (size : Z * Z) : M writer_t := λ w,
  let opened := opens e fourcc in
  let w1 := set_cv_log (λ l, l ++ [Construct fourcc opened]) w in
  let w2 :=
    if opened
    then set_fs (λ d, <[path := VideoFile (Video fourcc fps size [])]> d) w1
    else w1 in
  (Returns (Writer path fourcc opened), w2).

Definition isOpened (wr : writer_t) : bool := wr_opened wr.

Definition release (wr : writer_t) : M unit :=
  modify (set_cv_log (λ l, l ++ [Release (wr_fourcc wr)])).

Definition add_frame (frame : ndarray) (f : file) : file :=
  match f with
  | VideoFile v =>
      VideoFile (Video (v_fourcc v) (v_fps v) (v_size v) (v_frames v ++ [frame]))
  | _ => f
  end.

(** [writer.write(frame)] *)
Definition write (wr : writer_t) (frame : ndarray) : M unit :=
  modify (set_fs (λ d, alter (add_frame frame) (wr_path wr) d)).

(** ** The program *)

Definition SIGNS_FOLDER : string := "../Code/Predict signs/Reverse sign images".
Definition OUTPUT_FOLDER : string := "output_videos".

(** [os.path.join] *)
Definition path_join (dir name : string) : string :=
  (dir ++ "/" ++ name)%string.

Definition alphabet : str := py"abcdefghijklmnopqrstuvwxyz0123456789".

Definition mappings : list (ascii * string) :=
  map (λ c, (c, String c ".jpg")) alphabet.

(** The body of the loading loop, for one entry of [mappings]. *)
Definition load_one (e : env) (entry : ascii * string) : M unit :=
  let '(char, filename) := entry in
  match signs_dir e filename with
  | Some (h, w) =>
      img ← alloc (resize (Imread filename h w) (480, 640));
      modify (set_sign_images (dict_set char img))
  | None => mret tt
  end.

Definition load_sign_images (e : env) : M unit :=
  for_each mappings (load_one e).

Definition fps : Z := 15.
Definition char_frames : Z := 6.
Definition space_frames : Z := 3.
Definition fade_frames : Z := 2.

Definition codecs_to_try : list (string * Z) :=
  [ ("avc1", VideoWriter_fourcc "avc1");
    ("H264", VideoWriter_fourcc "H264");
    ("X264", VideoWriter_fourcc "X264");
    ("mp4v", VideoWriter_fourcc "mp4v") ]%string.

(** Lines 80 to 82: the normaliser. *)
Definition clean (text : str) : str :=
  filter (λ c, isalnum c || isspace c = true) (lower text).

Definition normalize (text : str) : outcome str :=
  let clean_text := clean text in
  if is_empty (strip clean_text)
  then Raises (ValueError "No valid characters in text")
  else Returns clean_text.

(** Lines 102 to 108: the [for ... break] loop over the codecs; the
    result is the value of [writer] after the loop. *)
Fixpoint open_writer (e : env) (path : string) (size : Z * Z)
    (codecs : list (string * Z)) (writer : option writer_t)
    : M (option writer_t) :=
  match codecs with
  | [] => mret writer
  | (codec_name, fourcc) :: rest =>
      wr ← VideoWriter e path fourcc fps size;
      if isOpened wr then mret (Some wr)
      else release wr ;; open_writer e path size rest (Some wr)
  end.

(** [f"'{c.upper()}'"] *)
Definition label_of (c : ascii) : list N := [39%N] ++ upper_char c ++ [39%N].

(** [fade_idx / fade_frames] and the like: true division; the values
    that occur (0, 1/2, 1) are exact in floating point. *)
Definition ratio (a b : Z) : Q := Qred (inject_Z a / inject_Z b).
Definition one_minus (alpha : Q) : Q := Qred (1 - alpha).

(** Lines 117 to 151: the body of the loop over [enumerate(clean_text)]. *)
Definition emit (e : env) (writer : writer_t) (h w : Z) (clean_text : str)
    (ic : Z * ascii) : M unit :=
  let '(i, c) := ic in
  if decide (c = " "%char) then
    let black := zeros h w in
    for_each (range space_frames) (λ _, write writer black)
  else
    st ← get;
    match dict_get c (sign_images st) with
    | None => mret tt
    | Some stored =>
        img ← deref stored;
        frame ← alloc img;                                  (* .copy() *)
        let label := label_of c in
        let '(tw, th) := getTextSize e label in
        let tx := (w - tw) `div` 2 in
        let ty := h - 40 in
        putText frame label (tx + 2, ty + 2) (0, 0, 0) 4 ;;
        putText frame label (tx, ty) (255, 255, 255) 3 ;;
        for_each (range fade_frames) (λ fade_idx,
          let alpha := ratio fade_idx fade_frames in
          let black := zeros h w in
          cur ← deref frame;
          faded_frame ← addWeighted black (one_minus alpha) cur alpha 0;
          write writer faded_frame) ;;
        for_each (range (char_frames - 2 * fade_frames)) (λ _,
          cur ← deref frame; write writer cur) ;;
        if bool_decide (i < Z.of_nat (length clean_text) - 1) then
          for_each (range fade_frames) (λ fade_idx,
            let alpha := ratio (fade_frames - fade_idx) fade_frames in
            let black := zeros h w in
            cur ← deref frame;
            faded_frame ← addWeighted black (one_minus alpha) cur alpha 0;
            write writer faded_frame)
        else
          for_each (range fade_frames) (λ _,
            cur ← deref frame; write writer cur)
    end.

Definition output_name (e : env) : string :=
  ("sign_" ++ now e ++ "_" ++ uuid8 e ++ ".mp4")%string.

Definition create_sign_video (e : env) (text : str) : M string :=
  st ← get;
  if bool_decide (sign_images st = []) then
    raise (ValueError "Sign images not loaded")
  else
    clean_text ← lift (normalize text);
    first_img ← match sign_images st with
                | (_, l) :: _ => deref l
                | [] => raise StopIteration
                end;
    let '(h, w) := shape first_img in
    let filename := output_name e in
    let path := path_join OUTPUT_FOLDER filename in
    writer ← open_writer e path (w, h) codecs_to_try None;
    match writer with
    | Some wr =>
        if isOpened wr then
          try_finally
            (for_each (enumerate clean_text) (emit e wr h w clean_text))
            (release wr) ;;
          mret filename
        else raise (ValueError "Could not create video file with any codec")
    | None => raise (ValueError "Could not create video file with any codec")
    end.

(** *** Speech transcription *)

(** Outcomes of the calls into pydub and speech_recognition for one
    request. *)
Record speech := Speech {
  from_file : string → outcome unit;
    (* AudioSegment.from_file(path), then set_channels, set_frame_rate *)
  record : string → outcome unit;
    (* with sr.AudioFile(wav_path) as source: adjust_for_ambient_noise,
       recognizer.record *)
  recognize_google : string → outcome str;
}.

(** [try: body except E as ex: handler(ex)] *)
Definition try_except {A} (body : M A) (handler : exn → M A) : M A := λ w,
  match body w with
  | (Returns a, w') => (Returns a, w')
  | (Raises ex, w') => handler ex w'
  end.

(** [os.path.exists] and [os.unlink] *)
Definition path_exists (path : string) : M bool := λ w,
  (Returns (bool_decide (is_Some (fs w !! path))), w).
Definition unlink (path : string) : M unit :=
  modify (set_fs (delete path)).

(** [audio.export(wav_path, format="wav")] *)
Definition export (source wav_path : string) : M unit :=
  modify (set_fs (λ d, <[wav_path := WavFile source]> d)).

Definition speech_to_text (sp : speech) (audio_file_path : string) : M str :=
  let wav_path := (audio_file_path ++ "_fixed.wav")%string in
  lift (from_file sp audio_file_path) ;;
  export audio_file_path wav_path ;;
  lift (record sp wav_path) ;;
  try_finally
    (try_except
       (text ← lift (recognize_google sp wav_path);
        mret (strip (lower text)))
       (λ ex,
         match ex with
         | UnknownValueError => raise (ValueError "Could not understand audio")
         | RequestError msg =>
             raise (ValueError ("Google Speech Recognition error: " ++ msg))
         | _ => raise ex
         end))
    (found ← path_exists wav_path;
     if (found : bool) then unlink wav_path else mret tt).

(** *** The [/text-to-sign] handler *)

Inductive json : Type :=
| JNull
| JBool (b : bool)
| JNumber (n : Z)
| JString (s : str)
| JArray     (* a list, contents elided *)
| JObject.   (* a nested object, contents elided *)

Inductive response : Type :=
| Ok200 (video_file : string) (text : str)
| HTTPError (status : Z) (detail : string).

Definition status_of (r : response) : Z :=
  match r with Ok200 _ _ => 200 | HTTPError status _ => status end.

(** The handler proper: either the returned dict or the exception it
    raises; [inl] stands for [raise HTTPException(status, detail)]. *)
Definition text_to_sign_body (e : env) (data : gmap string json)
    : world → (Z * string + outcome (string * str)) * world := λ w,
  match default (JString []) (data !! "text"%string) with
  | JString s =>
      let text := strip s in
      if is_empty text then (inl (400, "Text is required"%string), w)
      else
        match create_sign_video e text w with
        | (Returns file, w') => (inr (Returns (file, text)), w')
        | (Raises ex, w') => (inl (500, exn_str ex), w')
        end
  | _ => (inr (Raises (AttributeError "object has no attribute 'strip'")), w)
  end.

(** What the client receives: FastAPI turns an [HTTPException] into a
    response with its status and detail, and any other exception into
    500 Internal Server Error. *)
Definition text_to_sign (e : env) (data : gmap string json)
    : world → response * world := λ w,
  match text_to_sign_body e data w with
  | (inl (status, detail), w') => (HTTPError status detail, w')
  | (inr (Returns (file, text)), w') => (Ok200 file text, w')
  | (inr (Raises _), w') => (HTTPError 500 "Internal Server Error", w')
  end.

(** * Specification-level definitions *)

(** The image a table key denotes: the array its entry points to. *)
Definition image_of (w : world) (c : ascii) : option ndarray :=
  l ← dict_get c (sign_images w); heap w !! l.

(** The labelled copy of a sign image that the composer draws. *)
Definition labelled (e : env) (h w : Z) (c : ascii) (img : ndarray) : ndarray :=
  let label := label_of c in
  let tx := (w - (getTextSize e label).1) `div` 2 in
  let ty := h - 40 in
  PutText (PutText img label (tx + 2, ty + 2) (0, 0, 0) 4)
          label (tx, ty) (255, 255, 255) 3.

(** A frame blended from black with weight [alpha] on the image. *)
Definition blend (h w : Z) (alpha : Q) (frame : ndarray) : ndarray :=
  AddWeighted (Zeros h w) (one_minus alpha) frame alpha 0.

Definition fade_in (h w : Z) (frame : ndarray) : list ndarray :=
  [blend h w 0 frame; blend h w (1 # 2) frame].
Definition hold (frame : ndarray) : list ndarray := [frame; frame].
Definition fade_out (h w : Z) (frame : ndarray) : list ndarray :=
  [blend h w 1 frame; blend h w (1 # 2) frame].
Definition extra_hold (frame : ndarray) : list ndarray := [frame; frame].

Definition blank_frames (h w : Z) : list ndarray :=
  [Zeros h w; Zeros h w; Zeros h w].

Definition sign_frames (e : env) (h w : Z) (last : bool) (c : ascii)
    (img : ndarray) : list ndarray :=
  let frame := labelled e h w c img in
  fade_in h w frame ++ hold frame
  ++ (if last then extra_hold frame else fade_out h w frame).

(** Frames contributed by the character [c] at index [i] of a text of
    length [n], for a table that denotes [tbl]. *)
Definition frames_of (e : env) (h w : Z) (tbl : ascii → option ndarray)
    (n : nat) (ic : Z * ascii) : list ndarray :=
  if decide (ic.2 = " "%char) then blank_frames h w
  else match tbl ic.2 with
       | Some img =>
           sign_frames e h w (negb (bool_decide (ic.1 < Z.of_nat n - 1))) ic.2 img
       | None => []
       end.

(** Arrays the composer allocates for that character. *)
Definition copies_of (e : env) (h w : Z) (tbl : ascii → option ndarray)
    (ic : Z * ascii) : list ndarray :=
  if decide (ic.2 = " "%char) then []
  else match tbl ic.2 with
       | Some img => [labelled e h w ic.2 img]
       | None => []
       end.

Definition render (e : env) (h w : Z) (tbl : ascii → option ndarray)
    (clean_text : str) : list ndarray :=
  concat (map (frames_of e h w tbl (length clean_text)) (enumerate clean_text)).

Definition copies (e : env) (h w : Z) (tbl : ascii → option ndarray)
    (clean_text : str) : list ndarray :=
  concat (map (copies_of e h w tbl) (enumerate clean_text)).

(** The number of frames a character contributes. *)
Definition contribution (w : world) (c : ascii) : nat :=
  if decide (c = " "%char) then Z.to_nat space_frames
  else if dict_mem c (sign_images w) then Z.to_nat char_frames
  else 0%nat.

(** The invariant that loading establishes: every key is one of the
    thirty-six characters and points to a live 480 x 640 image. *)
Definition stored_ok (w : world) (entry : ascii * nat) : bool :=
  bool_decide (entry.1 ∈ alphabet)
  && match heap w !! entry.2 with
     | Some img => bool_decide (shape img = (640, 480))
     | None => false
     end.

Definition loaded (w : world) : bool := forallb (stored_ok w) (sign_images w).

(** Codec attempts that failed: each is constructed, then released. *)
Definition failed (fourccs : list Z) : list cv_event :=
  flat_map (λ c, [Construct c false; Release c]) fourccs.

(** Frames appended to the video at [path]. *)
Definition written (path : string) (frames : list ndarray) (w : world) : world :=
  foldl (λ w' frame, set_fs (alter (add_frame frame) path) w') w frames.

(** Arrays appended to the heap. *)
Definition grow (arrays : list ndarray) (w : world) : world :=
  set_heap (λ hp, hp ++ arrays) w.

(** The table of world [w1] denotes [tbl], with images of shape (h, w). *)
Definition agrees (h w : Z) (tbl : ascii → option ndarray) (w1 : world) : Prop :=
  ∀ c, match dict_get c (sign_images w1) with
       | Some l => ∃ img, heap w1 !! l = Some img ∧ tbl c = Some img
                          ∧ shape img = (h, w)
       | None => tbl c = None
       end.

(** The fourcc codes of the codec list, in order. *)
Definition fourccs : list Z := map snd codecs_to_try.

Definition refused (e : env) (fourcc : Z) : Prop := opens e fourcc = false.

Definition output_path (e : env) : string :=
  path_join OUTPUT_FOLDER (output_name e).

(** The world after a successful call that used the codec [c], the
    codecs [before] having been refused. *)
Definition composed (e : env) (clean_text : str) (c : Z) (before : list Z)
    (w : world) : world :=
  {| heap := heap w ++ copies e 640 480 (image_of w) clean_text;
     sign_images := sign_images w;
     fs := <[output_path e :=
              VideoFile (Video c fps (480, 640)
                           (render e 640 480 (image_of w) clean_text))]> (fs w);
     cv_log := cv_log w ++ failed before ++ [Construct c true; Release c] |}.

(** The normaliser in the words of the specification: the lowercase
    form of the string, with every character removed that is neither
    alphanumeric nor whitespace. *)
Fixpoint remove_if (drop : ascii → bool) (s : str) : str :=
  match s with
  | [] => []
  | c :: s' => if drop c then remove_if drop s' else c :: remove_if drop s'
  end.

Definition spec_normalized (text : str) : str :=
  remove_if (λ c, negb (isalnum c) && negb (isspace c)) (lower text).

(** ** Sample surroundings *)

Definition mp4v : Z := VideoWriter_fourcc "mp4v".

(** A signs folder with all thirty-six images, and a folder with only
    [a.jpg] and [b.jpg]. *)
Definition full_folder (filename : string) : option (Z * Z) := Some (512, 384).
Definition ab_folder (filename : string) : option (Z * Z) :=
  if bool_decide (filename = "a.jpg"%string ∨ filename = "b.jpg"%string)
  then Some (512, 384) else None.

(** An OpenCV build in which only the mp4v fallback opens. *)
Definition demo_env : env :=
  {| signs_dir := full_folder; getTextSize := λ _, (66, 27);
     opens := λ c, bool_decide (c = mp4v);
     now := "20250101_120000"; uuid8 := "0a1b2c3d" |}.

Definition ab_env : env :=
  {| signs_dir := ab_folder; getTextSize := getTextSize demo_env;
     opens := opens demo_env; now := now demo_env; uuid8 := uuid8 demo_env |}.

(** An OpenCV build without any of the four codecs. *)
Definition no_codec_env : env :=
  {| signs_dir := full_folder; getTextSize := getTextSize demo_env;
     opens := λ _, false; now := now demo_env; uuid8 := uuid8 demo_env |}.

(** The process right after startup. *)
Definition startup (e : env) : world := (load_sign_images e empty_world).2.

Definition demo_world : world := startup demo_env.
Definition ab_world : world := startup ab_env.

(** U+00E9, e with acute accent. *)
Definition e_acute : ascii := ascii_of_N 233.
Definition tab : ascii := ascii_of_N 9.

(** A transcription request in which reading the re-encoded WAV fails,
    and one in which every library call succeeds. *)
Definition read_fails : speech :=
  {| from_file := λ _, Returns tt;
     record := λ _, Raises (OtherException "error reading WAV data");
     recognize_google := λ _, Returns (py"hello") |}.

Definition upload_path : string := "/tmp/tmpk3v9x2.webm".

Definition upload_world : world :=
  set_fs (λ d, <[upload_path := UploadFile]> d) demo_world.

(** ** The rest of the HTTP layer *)

(** What [/speech-to-sign] reads from its surroundings besides the
    speech libraries: the temp file that [tempfile.NamedTemporaryFile]
    creates, and whether copying the upload into it succeeds. *)
Record upload := Upload {
  tmp_file : outcome string;
    (* NamedTemporaryFile(delete=False, suffix='.webm'): the name of
       the file it creates, or the exception it raises *)
  read_upload : outcome unit;
    (* tmp.write(audio_file.file.read()) *)
}.

(** Lines 397 to 401 of [speech_to_sign]: the rest of the [try] block
    once the upload is in its temp file. *)
Definition transcribe_and_sign (e : env) (sp : speech) (tmp_path : string)
    : M (string * str) :=
  text ← speech_to_text sp tmp_path;
  if is_empty text then raise (ValueError "No speech detected")
  else file ← create_sign_video e text; mret (file, text).

(** The handler proper, as for [text_to_sign_body]; the [option] is the
    value of [tmp_path] when the [finally] clause runs. *)
Definition speech_to_sign_body (e : env) (sp : speech) (rq : upload)
    : world → (Z * string + outcome (string * str)) * world := λ w,
  let '(r, tmp_path, w1) :=
    match tmp_file rq with
    | Raises ex => (Raises ex, None, w)
    | Returns name =>
        let w0 := set_fs (λ d, <[name := UploadFile]> d) w in
        match read_upload rq with
        | Raises ex => (Raises ex, None, w0)
        | Returns _ =>
            let '(r, w1) := transcribe_and_sign e sp name w0 in
            (r, Some name, w1)
        end
    end in
  let w2 :=
    match tmp_path with
    | Some path =>
        if bool_decide (path ≠ ""%string)
           && bool_decide (is_Some (fs w1 !! path))
        then set_fs (delete path) w1 else w1
    | None => w1
    end in
  (match r with
   | Returns result => inr (Returns result)
   | Raises ex => inl (500, exn_str ex)
   end, w2).

Definition speech_to_sign (e : env) (sp : speech) (rq : upload)
    : world → response * world := λ w,
  match speech_to_sign_body e sp rq w with
  | (inl (status, detail), w') => (HTTPError status detail, w')
  | (inr (Returns (file, text)), w') => (Ok200 file text, w')
  | (inr (Raises _), w') => (HTTPError 500 "Internal Server Error", w')
  end.

Record file_response := FileResponse {
  fr_path : string;
  fr_media_type : string;
  fr_headers : list (string * string);
}.

(** [GET /video/{video_filename}]: [inl] is the [HTTPException]. A path
    parameter holds no slash, so [os.path.join] appends it to the
    folder. *)
Definition get_video (video_filename : string) (w : world)
    : Z * string + file_response :=
  let path := path_join OUTPUT_FOLDER video_filename in
  if bool_decide (is_Some (fs w !! path))
  then inr (FileResponse path "video/mp4"
              [("Accept-Ranges", "bytes"); ("Cache-Control", "no-cache")]%string)
  else inl (404, "Video not found"%string).

(** The bytes a [FileResponse] sends are the file's contents when the
    response is built. *)
Definition served (r : file_response) (w : world) : option file :=
  fs w !! fr_path r.

(** *** A running server *)

Inductive request : Type :=
| PostText (e : env) (data : gmap string json)
| PostSpeech (e : env) (sp : speech) (rq : upload)
| GetVideo (video_filename : string).

Definition handle (w : world) (r : request) : world :=
  match r with
  | PostText e data => (text_to_sign e data w).2
  | PostSpeech e sp rq => (speech_to_sign e sp rq w).2
  | GetVideo _ => w
  end.

(** The world after the requests [rs], handled one after the other. *)
Definition serve (rs : list request) (w : world) : world := foldl handle w rs.

(** The files a request may create, replace or delete. *)
Definition may_touch (r : request) : list string :=
  match r with
  | PostText e _ => [output_path e]
  | PostSpeech e _ rq =>
      match tmp_file rq with
      | Returns name => [name; (name ++ "_fixed.wav")%string; output_path e]
      | Raises _ => []
      end
  | GetVideo _ => []
  end.

(** The characters of the alphabet whose image file exists and decodes,
    in the order of the alphabet. *)
Definition present (e : env) (cs : list ascii) : list ascii :=
  List.filter (λ c, bool_decide (is_Some (signs_dir e (String c ".jpg")))) cs.

(** The images [load_sign_images] stores for the characters [cs]. *)
Definition stored_images (e : env) (cs : list ascii) : list ndarray :=
  omap (λ c, (λ hw : Z * Z,
                Resize (Imread (String c ".jpg") hw.1 hw.2) 480 640)
             <$> signs_dir e (String c ".jpg")) cs.

(** The fourcc codes of the writers constructed, and of the writers
    released, in a stretch of the log. *)
Definition constructed (l : list cv_event) : list Z :=
  omap (λ ev, match ev with Construct c _ => Some c | Release _ => None end) l.
Definition released (l : list cv_event) : list Z :=
  omap (λ ev, match ev with Release c => Some c | Construct _ _ => None end) l.

(** A transcription request in which every library call succeeds and
    the service hears "Hello  ". *)
Definition hears_hello : speech :=
  {| from_file := λ _, Returns tt;
     record := λ _, Returns tt;
     recognize_google := λ _, Returns (py"Hello  ") |}.

(** One in which the service hears only silence. *)
Definition hears_nothing : speech :=
  {| from_file := λ _, Returns tt;
     record := λ _, Returns tt;
     recognize_google := λ _, Returns (py"  ") |}.

Definition demo_upload : upload :=
  {| tmp_file := Returns upload_path; read_upload := Returns tt |}.

(** A second request, one second later. *)
Definition later_env : env :=
  {| signs_dir := signs_dir demo_env; getTextSize := getTextSize demo_env;
     opens := opens demo_env; now := "20250101_120001"; uuid8 := "9f8e7d6c" |}.

(** [w'] comes from [w] by steps that leave the table alone, only add
    arrays at the end of the heap, and change no file outside [paths]. *)
Definition touches (paths : list string) (w w' : world) : Prop :=
  sign_images w' = sign_images w
  ∧ (∃ arrays, heap w' = heap w ++ arrays)
  ∧ ∀ p, p ∉ paths → fs w' !! p = fs w !! p.

(** Inclusion between explicit lists of paths. *)
Ltac paths_incl :=
  let x := fresh "x" in
  let Hx := fresh "Hx" in
  intros x Hx;
  repeat (apply elem_of_app in Hx as [Hx|Hx] || apply elem_of_cons in Hx as [Hx|Hx]);
  try (by apply elem_of_nil in Hx);
  subst; repeat ((by left) || right).

(** The codec of the video that the world holds at the output path of
    [e] (0 when there is none). *)
Definition v_fourcc_of (w : world) (e : env) : Z :=
  match fs w !! output_path e with
  | Some (VideoFile v) => v_fourcc v
  | _ => 0
  end.

(** What [speech_to_text] makes of the outcome of the recognition
    call, lines 64 to 70. *)
Definition transcript (o : outcome str) : outcome str :=
  match o with
  | Returns text => Returns (strip (lower text))
  | Raises UnknownValueError => Raises (ValueError "Could not understand audio")
  | Raises (RequestError msg) =>
      Raises (ValueError ("Google Speech Recognition error: " ++ msg))
  | Raises ex => Raises ex
  end.

(** * Properties *)

Example lower_hello : lower (py"Hello, World! 123") = py"hello, world! 123".
Proof. reflexivity. Qed.

Example strip_padded : strip (py"  a b  ") = py"a b".
Proof. reflexivity. Qed.

(** ** Strings *)

Lemma isalnum_lower c : isalnum (lower_char c) = isalnum c.
Proof.
  rewrite <- (ascii_N_embedding c).
  destruct (N_of_ascii c) as [|p] eqn:E; [reflexivity|].
  assert (Hlt : (N.pos p < 256)%N) by (rewrite <- E; apply N_ascii_bounded).
  clear E.
  do 8 (destruct p as [p|p|]; try (exfalso; lia); try reflexivity).
Qed.

(** ** The monad *)

Lemma bind_returns {A B} (m : M A) (k : A → M B) w a w' :
  m w = (Returns a, w') → (m ≫= k) w = k a w'.
Proof. intros H. unfold mbind, M_bind. by rewrite H. Qed.

(** ** Writing frames *)

Lemma written_app path fr1 fr2 w :
  written path (fr1 ++ fr2) w = written path fr2 (written path fr1 w).
Proof. apply foldl_app. Qed.

Lemma written_heap path frames w : heap (written path frames w) = heap w.
Proof. revert w. induction frames as [|f fr IH]; intros w; [done|]. simpl. by rewrite IH. Qed.

Lemma written_sign_images path frames w :
  sign_images (written path frames w) = sign_images w.
Proof. revert w. induction frames as [|f fr IH]; intros w; [done|]. simpl. by rewrite IH. Qed.

Lemma written_cv_log path frames w : cv_log (written path frames w) = cv_log w.
Proof. revert w. induction frames as [|f fr IH]; intros w; [done|]. simpl. by rewrite IH. Qed.

Lemma written_set_heap path frames f w :
  written path frames (set_heap f w) = set_heap f (written path frames w).
Proof. revert w. induction frames as [|fr frs IH]; intros w; [done|]. simpl. by rewrite <- IH. Qed.

(** Frames written to a fresh video file accumulate in order. *)
Lemma written_fs path frames w fourcc rate size fr0 :
  fs w !! path = Some (VideoFile (Video fourcc rate size fr0)) →
  fs (written path frames w)
  = <[path := VideoFile (Video fourcc rate size (fr0 ++ frames))]> (fs w).
Proof.
  revert w fr0. induction frames as [|f fr IH]; intros w fr0 Hw; simpl.
  - rewrite app_nil_r. by rewrite insert_id.
  - rewrite (IH _ (fr0 ++ [f])); simpl.
    + rewrite <- app_assoc. simpl. apply map_eq. intros k.
      destruct (decide (k = path)) as [->|Hk].
      * by rewrite !lookup_insert_eq.
      * rewrite !lookup_insert_ne by done. by rewrite lookup_alter_ne.
    + by rewrite lookup_alter_eq, Hw.
Qed.

(** ** Steps on the heap and on the disk *)

Lemma deref_ok l a w : heap w !! l = Some a → deref l w = (Returns a, w).
Proof. intros H. unfold deref. by rewrite H. Qed.

Lemma putText_ok frame label org color thickness a w :
  heap w !! frame = Some a →
  putText frame label org color thickness w
  = (Returns tt, set_heap (λ hp, <[frame := PutText a label org color thickness]> hp) w).
Proof. intros H. unfold putText, update. by rewrite H. Qed.

(** A loop whose every iteration writes one frame and leaves the heap
    alone writes the frames in order. *)
Lemma for_each_written {A} (xs : list A) (body : A → M unit)
    (g : A → ndarray) path frame cur w :
  (∀ x w1, heap w1 !! frame = Some cur →
     body x w1 = (Returns tt, written path [g x] w1)) →
  heap w !! frame = Some cur →
  for_each xs body w = (Returns tt, written path (map g xs) w).
Proof.
  intros Hbody. revert w. induction xs as [|x xs IH]; intros w Hw; [done|].
  simpl for_each. erewrite bind_returns by (by apply Hbody).
  rewrite IH by (by rewrite written_heap). done.
Qed.

Lemma grow_nil w : grow [] w = w.
Proof. destruct w. unfold grow, set_heap. simpl. by rewrite app_nil_r. Qed.

Lemma grow_grow a1 a2 w : grow a2 (grow a1 w) = grow (a1 ++ a2) w.
Proof. unfold grow, set_heap. simpl. by rewrite app_assoc. Qed.

Lemma written_grow path frames arrays w :
  written path frames (grow arrays w) = grow arrays (written path frames w).
Proof. apply written_set_heap. Qed.

(** ** The composer loop

    Throughout: the surroundings [e], the opened writer [wr] and the
    frame height and width [h], [w] taken from the first image. *)

Section composer_loop.
Context (e : env) (wr : writer_t) (h w : Z).

Lemma emit_space clean_text i w0 :
  emit e wr h w clean_text (i, " "%char) w0
  = (Returns tt, written (wr_path wr) (blank_frames h w) w0).
Proof. reflexivity. Qed.

Lemma emit_unknown clean_text i c w0 :
  c ≠ " "%char → dict_get c (sign_images w0) = None →
  emit e wr h w clean_text (i, c) w0 = (Returns tt, w0).
Proof.
  intros Hc Hget. unfold emit. destruct (decide (c = " "%char)); [done|].
  unfold mbind, M_bind, get. by rewrite Hget.
Qed.

Lemma blend_step alpha frame cur w1 :
  shape cur = (h, w) → heap w1 !! frame = Some cur →
  (cur ← deref frame;
   faded_frame ← addWeighted (zeros h w) (one_minus alpha) cur alpha 0;
   write wr faded_frame) w1
  = (Returns tt, written (wr_path wr) [blend h w alpha cur] w1).
Proof.
  intros Hs Hf. erewrite bind_returns by (by apply deref_ok).
  unfold addWeighted. destruct (decide _) as [|Hne]; [done|].
  by rewrite Hs in Hne.
Qed.

Lemma hold_step frame cur w1 :
  heap w1 !! frame = Some cur →
  (cur ← deref frame; write wr cur) w1
  = (Returns tt, written (wr_path wr) [cur] w1).
Proof. intros Hf. by erewrite bind_returns by (by apply deref_ok). Qed.

Lemma emit_known clean_text i c w0 l img :
  c ≠ " "%char → dict_get c (sign_images w0) = Some l →
  heap w0 !! l = Some img → shape img = (h, w) →
  emit e wr h w clean_text (i, c) w0
  = (Returns tt,
     written (wr_path wr)
       (sign_frames e h w
          (negb (bool_decide (i < Z.of_nat (length clean_text) - 1))) c img)
       (set_heap (λ hp, hp ++ [labelled e h w c img]) w0)).
Proof.
  intros Hc Hget Himg Hshape. unfold emit.
  destruct (decide (c = " "%char)); [done|].
  unfold mbind at 1, M_bind at 1, get. rewrite Hget.
  erewrite bind_returns by (by apply deref_ok).
  erewrite bind_returns by reflexivity.
  unfold sign_frames, labelled.
  destruct (getTextSize e (label_of c)) as [tw th]. simpl fst.
  set (tx := (w - tw) `div` 2). set (ty := h - 40).
  set (F := PutText (PutText img _ _ _ _) _ _ _ _).
  erewrite bind_returns; [|apply putText_ok; apply list_lookup_middle; done].
  erewrite bind_returns;
    [|apply putText_ok; simpl; rewrite list_lookup_insert_eq; [done|];
      rewrite length_app; simpl; lia].
  match goal with |- _ ?w1 = _ =>
    replace w1 with (set_heap (λ hp, hp ++ [F]) w0)
  end.
  2:{ unfold set_heap; simpl. f_equal.
      rewrite list_insert_insert_eq.
      replace (length (heap w0)) with (length (heap w0) + 0)%nat at 1 by lia.
      by rewrite insert_app_r. }
  set (w2 := set_heap _ w0).
  assert (HF : heap w2 !! length (heap w0) = Some F)
    by (by apply list_lookup_middle).
  assert (HsF : shape F = (h, w)) by done.
  erewrite bind_returns;
    [|apply (for_each_written _ _ (λ fade_idx, blend h w (ratio fade_idx fade_frames) F) (wr_path wr) (length (heap w0)) F); [|done];
      intros x w1 Hw1; by apply blend_step].
  erewrite bind_returns;
    [|apply (for_each_written _ _ (λ _, F) (wr_path wr) (length (heap w0)) F); [|by rewrite written_heap];
      intros x w1 Hw1; by apply hold_step].
  rewrite !written_app.
  destruct (bool_decide _); simpl negb; cbv iota.
  - rewrite (for_each_written _ _ (λ fade_idx, blend h w (ratio (fade_frames - fade_idx) fade_frames) F) (wr_path wr) (length (heap w0)) F).
    + reflexivity.
    + intros x w1 Hw1; by apply blend_step.
    + by rewrite !written_heap.
  - rewrite (for_each_written _ _ (λ _, F) (wr_path wr) (length (heap w0)) F).
    + reflexivity.
    + intros x w1 Hw1; by apply hold_step.
    + by rewrite !written_heap.
Qed.

Lemma agrees_step tbl path frames arrays w1 :
  agrees h w tbl w1 → agrees h w tbl (written path frames (grow arrays w1)).
Proof.
  intros Hag c. specialize (Hag c).
  rewrite written_sign_images, written_heap. simpl.
  destruct (dict_get c (sign_images w1)) as [l|]; [|done].
  destruct Hag as (img & Hl & Ht & Hs). exists img.
  split; [by apply lookup_app_l_Some | done].
Qed.

Lemma emit_spec tbl clean_text ic w1 :
  agrees h w tbl w1 →
  emit e wr h w clean_text ic w1
  = (Returns tt,
     written (wr_path wr) (frames_of e h w tbl (length clean_text) ic)
       (grow (copies_of e h w tbl ic) w1)).
Proof.
  intros Hag. destruct ic as [i c]. unfold frames_of, copies_of. cbn [fst snd].
  destruct (decide (c = " "%char)) as [->|Hc].
  - by rewrite grow_nil, emit_space.
  - specialize (Hag c).
    destruct (dict_get c (sign_images w1)) as [l|] eqn:Hget.
    + destruct Hag as (img & Hl & -> & Hs). by erewrite emit_known.
    + rewrite Hag, grow_nil. by apply emit_unknown.
Qed.

Lemma loop_spec tbl clean_text ics w1 :
  agrees h w tbl w1 →
  for_each ics (emit e wr h w clean_text) w1
  = (Returns tt,
     written (wr_path wr)
       (concat (map (frames_of e h w tbl (length clean_text)) ics))
       (grow (concat (map (copies_of e h w tbl) ics)) w1)).
Proof.
  revert w1. induction ics as [|ic ics IH]; intros w1 Hag; simpl.
  - by rewrite grow_nil.
  - erewrite bind_returns by (by apply emit_spec).
    rewrite IH by (by apply agrees_step).
    by rewrite written_app, !written_grow, grow_grow.
Qed.

End composer_loop.

(** ** The codec loop *)

Lemma open_writer_first e path size before name c after wr0 w :
  Forall (refused e) (map snd before) → opens e c = true →
  open_writer e path size (before ++ (name, c) :: after) wr0 w
  = (Returns (Some (Writer path c true)),
     set_fs (λ d, <[path := VideoFile (Video c fps size [])]> d)
       (set_cv_log (λ l, l ++ failed (map snd before) ++ [Construct c true]) w)).
Proof.
  intros Hbefore Hc. revert wr0 w.
  induction before as [|[n0 c0] before IH]; intros wr0 w; simpl.
  - unfold mbind, M_bind, VideoWriter, isOpened. simpl. rewrite Hc. reflexivity.
  - inversion Hbefore as [|? ? Hc0 Hrest]; subst.
    unfold mbind at 1, M_bind at 1, VideoWriter, isOpened. simpl.
    rewrite Hc0. simpl.
    erewrite bind_returns by reflexivity.
    rewrite IH by done.
    unfold set_fs, set_cv_log. simpl. by rewrite <- !app_assoc.
Qed.

Lemma open_writer_none e path size codecs wr0 w :
  Forall (refused e) (map snd codecs) →
  from_option isOpened false wr0 = false →
  ∃ wr1, open_writer e path size codecs wr0 w
         = (Returns wr1, set_cv_log (λ l, l ++ failed (map snd codecs)) w)
         ∧ from_option isOpened false wr1 = false.
Proof.
  revert wr0 w. induction codecs as [|[n1 c1] codecs IH]; intros wr0 w Hall H0; simpl.
  - exists wr0. split; [|done].
    unfold set_cv_log. destruct w; simpl. by rewrite app_nil_r.
  - inversion Hall as [|? ? Hc1 Hrest]; subst.
    destruct (IH (Some (Writer path c1 false))
                (set_cv_log (λ l, l ++ [Release c1])
                   (set_cv_log (λ l, l ++ [Construct c1 false]) w)) Hrest)
      as (wr1 & Hrun & Hwr1); [done|].
    exists wr1. split; [|done].
    unfold mbind at 1, M_bind at 1, VideoWriter, isOpened. simpl.
    rewrite Hc1. simpl.
    erewrite bind_returns by reflexivity.
    simpl. rewrite Hrun.
    unfold set_cv_log. simpl. by rewrite <- !app_assoc.
Qed.

(** Either every codec is refused, or there is a first one that opens. *)
Lemma first_open_cases e (cs : list (string * Z)) :
  Forall (refused e) (map snd cs)
  ∨ ∃ before name c after,
      cs = before ++ (name, c) :: after
      ∧ Forall (refused e) (map snd before) ∧ opens e c = true.
Proof.
  induction cs as [|[n c] cs IH].
  - left. constructor.
  - destruct (opens e c) eqn:Hc.
    + right. exists [], n, c, cs. repeat split; [constructor | done].
    + destruct IH as [Hall | (before & name & c' & after & -> & Hb & Hc')].
      * left. by constructor.
      * right. exists ((n, c) :: before), name, c', after.
        repeat split; [by constructor | done].
Qed.

(** ** The loaded-table invariant *)

Lemma dict_get_elem {V} c (v : V) d : dict_get c d = Some v → (c, v) ∈ d.
Proof.
  induction d as [|[k x] d IH]; simpl; [done|].
  destruct (decide (c = k)) as [->|].
  - intros [= ->]. left.
  - intros H. right. by apply IH.
Qed.

Lemma loaded_entry w c l :
  loaded w = true → dict_get c (sign_images w) = Some l →
  c ∈ alphabet ∧ ∃ img, heap w !! l = Some img ∧ shape img = (640, 480).
Proof.
  intros Hw Hget. apply dict_get_elem in Hget.
  unfold loaded in Hw. rewrite forallb_forall in Hw.
  specialize (Hw (c, l)). rewrite <- list_elem_of_In in Hw.
  specialize (Hw Hget). unfold stored_ok in Hw. simpl in Hw.
  apply andb_true_iff in Hw as [Hc Himg].
  apply bool_decide_eq_true in Hc. split; [done|].
  destruct (heap w !! l) as [img|]; [|done].
  apply bool_decide_eq_true in Himg. eauto.
Qed.

Lemma loaded_agrees w : loaded w = true → agrees 640 480 (image_of w) w.
Proof.
  intros Hw c. unfold image_of.
  destruct (dict_get c (sign_images w)) as [l|] eqn:Hget; [|done].
  destruct (loaded_entry _ _ _ Hw Hget) as (_ & img & Hl & Hs).
  exists img. simpl. by rewrite Hl.
Qed.

Lemma agrees_ext h w tbl w1 w2 :
  heap w2 = heap w1 → sign_images w2 = sign_images w1 →
  agrees h w tbl w1 → agrees h w tbl w2.
Proof. intros Hh Hs Hag c. specialize (Hag c). by rewrite Hh, Hs. Qed.

(** The invariant only looks at the table and at the arrays it points
    to: it survives new arrays, new files and new log entries. *)
Lemma loaded_extends w w' :
  sign_images w' = sign_images w →
  (∀ l a, heap w !! l = Some a → heap w' !! l = Some a) →
  loaded w = true → loaded w' = true.
Proof.
  intros Hs Hh Hw. unfold loaded in *. rewrite Hs.
  rewrite forallb_forall in *. intros entry Hin.
  specialize (Hw entry Hin). unfold stored_ok in *.
  apply andb_true_iff in Hw as [Hc Himg]. apply andb_true_iff. split; [done|].
  destruct (heap w !! entry.2) as [img|] eqn:Hl; [|done].
  by rewrite (Hh _ _ Hl).
Qed.

(** ** What a call of [create_sign_video] does *)

Lemma run_not_loaded e text w :
  sign_images w = [] →
  create_sign_video e text w = (Raises (ValueError "Sign images not loaded"), w).
Proof.
  intros H. unfold create_sign_video, mbind, M_bind, get.
  by rewrite bool_decide_eq_true_2.
Qed.

Lemma run_blank e text w ex :
  sign_images w ≠ [] → normalize text = Raises ex →
  create_sign_video e text w = (Raises ex, w).
Proof.
  intros H Hn. unfold create_sign_video, mbind, M_bind, get, lift.
  rewrite bool_decide_eq_false_2 by done. by rewrite Hn.
Qed.

Lemma first_image w :
  loaded w = true → sign_images w ≠ [] →
  ∃ c l rest img, sign_images w = (c, l) :: rest
                  ∧ heap w !! l = Some img ∧ shape img = (640, 480).
Proof.
  intros Hw Hne. destruct (sign_images w) as [|[c l] rest] eqn:Hs; [done|].
  destruct (loaded_entry w c l Hw) as (_ & img & Hl & Hsh).
  - rewrite Hs. simpl. by destruct (decide (c = c)).
  - by exists c, l, rest, img.
Qed.

Lemma run_refused e text w clean_text :
  loaded w = true → sign_images w ≠ [] → normalize text = Returns clean_text →
  Forall (refused e) fourccs →
  create_sign_video e text w
  = (Raises (ValueError "Could not create video file with any codec"),
     set_cv_log (λ l, l ++ failed fourccs) w).
Proof.
  intros Hw Hne Hn Hall.
  destruct (first_image w Hw Hne) as (c0 & l0 & rest & img & Hs & Hl & Hsh).
  unfold create_sign_video, mbind at 1, M_bind at 1, get.
  rewrite bool_decide_eq_false_2 by done.
  unfold mbind at 1, M_bind at 1, lift. rewrite Hn, Hs.
  erewrite bind_returns by (by apply deref_ok). rewrite Hsh.
  destruct (open_writer_none e (path_join OUTPUT_FOLDER (output_name e))
              (480, 640) codecs_to_try None w Hall) as (wr1 & Hrun & Hwr1);
    [done|].
  erewrite bind_returns by exact Hrun.
  destruct wr1 as [wr|]; [|done].
  simpl in Hwr1. by rewrite Hwr1.
Qed.

Lemma world_eq w1 w2 :
  heap w1 = heap w2 → sign_images w1 = sign_images w2 →
  fs w1 = fs w2 → cv_log w1 = cv_log w2 → w1 = w2.
Proof. destruct w1, w2. simpl. by intros -> -> -> ->. Qed.

Lemma run_ok e text w clean_text before name c after :
  loaded w = true → sign_images w ≠ [] → normalize text = Returns clean_text →
  codecs_to_try = before ++ (name, c) :: after →
  Forall (refused e) (map snd before) → opens e c = true →
  create_sign_video e text w
  = (Returns (output_name e), composed e clean_text c (map snd before) w).
Proof.
  intros Hw Hne Hn Hsplit Hbefore Hc.
  destruct (first_image w Hw Hne) as (c0 & l0 & rest & img & Hs & Hl & Hsh).
  unfold create_sign_video, mbind at 1, M_bind at 1, get.
  rewrite bool_decide_eq_false_2 by done.
  unfold mbind at 1, M_bind at 1, lift. rewrite Hn, Hs.
  erewrite bind_returns by (by apply deref_ok). rewrite Hsh.
  rewrite Hsplit.
  erewrite bind_returns by (by apply open_writer_first).
  unfold isOpened. cbn [wr_opened].
  set (path := path_join OUTPUT_FOLDER (output_name e)).
  set (w1 := set_fs _ _).
  assert (Hag : agrees 640 480 (image_of w) w1).
  { apply (agrees_ext _ _ _ w); [done | done | by apply loaded_agrees]. }
  unfold mbind, M_bind, try_finally.
  rewrite (loop_spec e _ 640 480 (image_of w) clean_text _ w1 Hag).
  simpl wr_path. unfold release, modify, mret, M_ret. simpl wr_fourcc.
  f_equal. apply world_eq; simpl.
  - by rewrite written_heap.
  - by rewrite written_sign_images.
  - rewrite written_grow. simpl.
    erewrite written_fs by (subst w1; simpl; apply lookup_insert_eq).
    subst w1. simpl. by rewrite insert_insert_eq.
  - rewrite written_cv_log. simpl. rewrite <- !app_assoc. done.
Qed.

(** ** Loading establishes the invariant *)

Lemma forallb_dict_set {V} (P : ascii * V → bool) k v d :
  P (k, v) = true → forallb P d = true → forallb P (dict_set k v d) = true.
Proof.
  intros Hkv. induction d as [|[k' v'] d IH]; simpl.
  - by rewrite Hkv.
  - intros [Hhd Htl]%andb_true_iff.
    destruct (decide (k = k')); simpl.
    + by rewrite Hkv, Htl.
    + by rewrite Hhd, IH.
Qed.

Lemma load_one_loaded e c filename w :
  c ∈ alphabet → loaded w = true →
  ∃ w', load_one e (c, filename) w = (Returns tt, w') ∧ loaded w' = true.
Proof.
  intros Hc Hw. unfold load_one.
  destruct (signs_dir e filename) as [[h wd]|]; [|by exists w].
  eexists. split; [reflexivity|].
  unfold loaded. simpl. apply forallb_dict_set.
  - unfold stored_ok. simpl. rewrite bool_decide_eq_true_2 by done.
    by rewrite list_lookup_middle.
  - unfold loaded in Hw. rewrite forallb_forall in *. intros entry Hin.
    specialize (Hw entry Hin). unfold stored_ok in *. simpl.
    apply andb_true_iff in Hw as [H1 H2]. rewrite H1. simpl.
    destruct (heap w !! entry.2) as [img|] eqn:Hl; [|done].
    by rewrite (lookup_app_l_Some _ _ _ _ Hl).
Qed.

Lemma load_entries_loaded e (entries : list (ascii * string)) w :
  Forall (λ entry, entry.1 ∈ alphabet) entries → loaded w = true →
  ∃ w', for_each entries (load_one e) w = (Returns tt, w') ∧ loaded w' = true.
Proof.
  revert w. induction entries as [|[c f] entries IH]; intros w Hall Hw.
  - by exists w.
  - inversion Hall as [|? ? Hc Hrest]; subst.
    destruct (load_one_loaded e c f w Hc Hw) as (w1 & Hrun1 & Hw1).
    destruct (IH w1 Hrest Hw1) as (w2 & Hrun2 & Hw2).
    exists w2. split; [|done]. simpl. by erewrite bind_returns by exact Hrun1.
Qed.

Lemma mappings_alphabet : Forall (λ entry, entry.1 ∈ alphabet) mappings.
Proof.
  unfold mappings. apply Forall_forall. intros entry Hin.
  apply list_elem_of_In, in_map_iff in Hin. destruct Hin as (c & <- & Hc).
  by apply list_elem_of_In.
Qed.

(** Startup: the table of a freshly started process is loaded. *)
Lemma load_sign_images_loaded e w :
  loaded w = true →
  ∃ w', load_sign_images e w = (Returns tt, w') ∧ loaded w' = true.
Proof.
  intros Hw. unfold load_sign_images.
  apply load_entries_loaded; [apply mappings_alphabet | done].
Qed.

(** A successful call keeps the invariant, so it holds at every request. *)
Lemma composed_loaded e clean_text c before w :
  loaded w = true → loaded (composed e clean_text c before w) = true.
Proof.
  apply loaded_extends; [done|]. simpl. intros l a. apply lookup_app_l_Some.
Qed.

Lemma startup_loaded e : loaded (startup e) = true.
Proof.
  unfold startup.
  destruct (load_sign_images_loaded e empty_world) as (w' & -> & Hw'); done.
Qed.

(** ** Stripping and cleaning *)

Lemma lstrip_keeps c s : c ∈ s → isspace c = false → c ∈ lstrip s.
Proof.
  intros Hin Hc. induction s as [|x s IH]; [done|]. simpl.
  apply elem_of_cons in Hin as [<-|Hin].
  - rewrite Hc. left.
  - destruct (isspace x); [by apply IH | by right].
Qed.

Lemma strip_keeps c s : c ∈ s → isspace c = false → c ∈ strip s.
Proof.
  intros Hin Hc. unfold strip, rstrip.
  apply list_elem_of_In. rewrite <- in_rev. apply list_elem_of_In.
  apply lstrip_keeps; [|done].
  apply list_elem_of_In. rewrite <- in_rev. apply list_elem_of_In.
  by apply lstrip_keeps.
Qed.

Lemma lstrip_spaces s : Forall (λ c, isspace c = true) s → lstrip s = [].
Proof. induction 1 as [|c s Hc _ IH]; simpl; [done|]. by rewrite Hc. Qed.

(** A string strips to nothing exactly when it is all whitespace. *)
Lemma strip_empty_iff s :
  is_empty (strip s) = true ↔ Forall (λ c, isspace c = true) s.
Proof.
  split.
  - intros He. apply Forall_forall. intros c Hin.
    destruct (isspace c) eqn:Hc; [done|].
    pose proof (strip_keeps c s Hin Hc) as Hk.
    destruct (strip s); [by apply elem_of_nil in Hk | done].
  - intros Hall. unfold strip. by rewrite (lstrip_spaces s Hall).
Qed.

Lemma alphabet_facts c :
  c ∈ alphabet →
  isalnum c = true ∧ isspace c = false ∧ lower_char c = c ∧ c ≠ " "%char.
Proof.
  intros H. unfold alphabet in H. simpl in H.
  repeat (apply elem_of_cons in H as [->|H]; [done|]).
  by apply elem_of_nil in H.
Qed.

Lemma clean_keeps c text :
  c ∈ text → c ∈ alphabet → c ∈ clean text.
Proof.
  intros Hin Hc. destruct (alphabet_facts c Hc) as (Ha & _ & Hl & _).
  unfold clean. apply list_elem_of_filter. split.
  - by rewrite Ha.
  - unfold lower. rewrite <- Hl. apply list_elem_of_In, in_map.
    by apply list_elem_of_In.
Qed.

Lemma normalize_returns c text :
  c ∈ text → c ∈ alphabet → normalize text = Returns (clean text).
Proof.
  intros Hin Hc. unfold normalize.
  destruct (is_empty (strip (clean text))) eqn:He; [|done].
  apply strip_empty_iff in He. rewrite Forall_forall in He.
  specialize (He c (clean_keeps c text Hin Hc)).
  destruct (alphabet_facts c Hc) as (_ & Hs & _). congruence.
Qed.

(** ** Counting frames *)

Lemma image_of_mem w c :
  loaded w = true →
  if dict_mem c (sign_images w) then is_Some (image_of w c)
  else image_of w c = None.
Proof.
  intros Hw. unfold dict_mem, image_of.
  destruct (dict_get c (sign_images w)) as [l|] eqn:Hget; [|done].
  destruct (loaded_entry _ _ _ Hw Hget) as (_ & img & Hl & _).
  simpl. rewrite Hl. eauto.
Qed.

Lemma frames_of_length e h w0 w n ic :
  loaded w = true →
  length (frames_of e h w0 (image_of w) n ic) = contribution w ic.2.
Proof.
  intros Hw. unfold frames_of, contribution.
  destruct (decide (ic.2 = " "%char)); [done|].
  pose proof (image_of_mem w ic.2 Hw) as Hm.
  destruct (dict_mem ic.2 (sign_images w)).
  - destruct Hm as [img ->]. unfold sign_frames. by destruct (negb _).
  - by rewrite Hm.
Qed.

Lemma render_from_length e h w0 w n i s :
  loaded w = true →
  length (concat (map (frames_of e h w0 (image_of w) n) (enumerate_from i s)))
  = sum_list (map (contribution w) s).
Proof.
  intros Hw. revert i. induction s as [|c s IH]; intros i; [done|].
  simpl. rewrite length_app, IH. by rewrite frames_of_length.
Qed.

Lemma render_length e h w0 w s :
  loaded w = true →
  length (render e h w0 (image_of w) s) = sum_list (map (contribution w) s).
Proof. intros Hw. by apply render_from_length. Qed.

(** ** The four ways a call can go *)

Lemma refused_or_open e :
  Forall (refused e) fourccs
  ∨ ∃ before name c after,
      codecs_to_try = before ++ (name, c) :: after
      ∧ Forall (refused e) (map snd before) ∧ opens e c = true.
Proof. apply first_open_cases. Qed.

Lemma run_cases e text w :
  loaded w = true →
  (sign_images w = []
   ∧ create_sign_video e text w
     = (Raises (ValueError "Sign images not loaded"), w))
  ∨ (sign_images w ≠ [] ∧ is_empty (strip (clean text)) = true
     ∧ create_sign_video e text w
       = (Raises (ValueError "No valid characters in text"), w))
  ∨ (sign_images w ≠ [] ∧ is_empty (strip (clean text)) = false
     ∧ Forall (refused e) fourccs
     ∧ create_sign_video e text w
       = (Raises (ValueError "Could not create video file with any codec"),
          set_cv_log (λ l, l ++ failed fourccs) w))
  ∨ (sign_images w ≠ [] ∧ is_empty (strip (clean text)) = false
     ∧ ∃ before name c after,
         codecs_to_try = before ++ (name, c) :: after
         ∧ Forall (refused e) (map snd before) ∧ opens e c = true
         ∧ create_sign_video e text w
           = (Returns (output_name e),
              composed e (clean text) c (map snd before) w)).
Proof.
  intros Hw.
  destruct (decide (sign_images w = [])) as [He|Hne].
  { left. split; [done | by apply run_not_loaded]. }
  right. destruct (is_empty (strip (clean text))) eqn:Hs.
  { left. repeat split; [done|]. apply run_blank; [done|].
    unfold normalize. by rewrite Hs. }
  right.
  assert (Hn : normalize text = Returns (clean text))
    by (unfold normalize; by rewrite Hs).
  destruct (refused_or_open e)
    as [Hall | (before & name & c & after & Hsplit & Hb & Hc)].
  - left. repeat split; [done.. | by apply run_refused with (clean_text := clean text)].
  - right. repeat split; [done..|].
    exists before, name, c, after. repeat split; [done..|].
    by apply run_ok with (name := name) (after := after).
Qed.

(** Every call, whatever its outcome, keeps the invariant: it holds at
    each request of a running server. *)
Lemma create_sign_video_loaded e text w :
  loaded w = true → loaded (create_sign_video e text w).2 = true.
Proof.
  intros Hw.
  destruct (run_cases e text w Hw)
    as [[_ ->] | [(_ & _ & ->) | [(_ & _ & _ & ->)
        | (_ & _ & before & name & c & after & _ & _ & _ & ->)]]];
    try done.
  by apply composed_loaded.
Qed.

Lemma existsb_open e :
  existsb (opens e) fourccs = true → ¬ Forall (refused e) fourccs.
Proof.
  intros Hex Hall. apply existsb_exists in Hex as (c & Hin & Hc).
  rewrite Forall_forall in Hall. apply list_elem_of_In in Hin.
  specialize (Hall c Hin). unfold refused in Hall. congruence.
Qed.

Lemma has_key_normalizes w text :
  loaded w = true →
  existsb (λ c, dict_mem c (sign_images w)) text = true →
  sign_images w ≠ [] ∧ normalize text = Returns (clean text).
Proof.
  intros Hw Hex. apply existsb_exists in Hex as (c & Hin & Hc).
  unfold dict_mem in Hc.
  destruct (dict_get c (sign_images w)) as [l|] eqn:Hget; [|done].
  split; [by destruct (sign_images w)|].
  destruct (loaded_entry _ _ _ Hw Hget) as (Ha & _).
  apply normalize_returns with (c := c); [by apply list_elem_of_In | done].
Qed.

(** * The claims *)

(** C1, as stated, fails: with a loaded table and the text "a", whose
    character is a key, [create_sign_video] raises when the OpenCV build
    opens none of the four codecs. *)
Lemma C1_no_codec_no_video :
  loaded (startup no_codec_env) = true
  ∧ existsb (λ c, dict_mem c (sign_images (startup no_codec_env))) (py"a") = true
  ∧ (create_sign_video no_codec_env (py"a") (startup no_codec_env)).1
    = Raises (ValueError "Could not create video file with any codec").
Proof. vm_compute. done. Qed.

(** C1, amended: for a loaded table, a text that contains at least one
    key of the table, and an OpenCV build in which at least one of the
    four codecs opens, [create_sign_video] returns the file name; the
    video file holds the frames of [render] and their number is the sum
    over the normalised text of 3 for a space, 6 for a key of the table
    and 0 for any other character. *)
Theorem C1_frame_count e w text :
  loaded w = true →
  existsb (λ c, dict_mem c (sign_images w)) text = true →
  existsb (opens e) fourccs = true →
  ∃ w' v,
    create_sign_video e text w = (Returns (output_name e), w')
    ∧ fs w' !! output_path e = Some (VideoFile v)
    ∧ v_frames v = render e 640 480 (image_of w) (clean text)
    ∧ length (v_frames v) = sum_list (map (contribution w) (clean text)).
Proof.
  intros Hw Hkey Hopen.
  destruct (has_key_normalizes w text Hw Hkey) as [Hne Hn].
  destruct (refused_or_open e)
    as [Hall | (before & name & c & after & Hsplit & Hb & Hc)].
  { by destruct (existsb_open e Hopen). }
  eexists _, _. split; [by eapply run_ok|].
  split; [apply lookup_insert_eq|]. split; [done|].
  by apply render_length.
Qed.

Lemma C1_frame_count_witness :
  ∃ w' v,
    create_sign_video demo_env (py"Hi, a1!") demo_world
    = (Returns (output_name demo_env), w')
    ∧ fs w' !! output_path demo_env = Some (VideoFile v)
    ∧ v_frames v = render demo_env 640 480 (image_of demo_world) (clean (py"Hi, a1!"))
    ∧ length (v_frames v)
      = sum_list (map (contribution demo_world) (clean (py"Hi, a1!"))).
Proof.
  apply (C1_frame_count demo_env demo_world (py"Hi, a1!")); reflexivity.
Defined.

Example frame_count_hi :
  sum_list (map (contribution demo_world) (clean (py"Hi, a1!"))) = 27%nat.
Proof. reflexivity. Qed.

(** C2, as stated, fails: with all thirty-six images loaded, the text
    "é" has no character that is a key (its normalised form is "é"
    itself, since é is alphanumeric), yet [create_sign_video] returns a
    file name and leaves a video file with no frames on disk. *)
Lemma C2_unknown_letter_makes_empty_video :
  let r := create_sign_video demo_env [e_acute] demo_world in
  clean [e_acute] = [e_acute]
  ∧ forallb (λ c, negb (dict_mem c (sign_images demo_world))) (clean [e_acute]) = true
  ∧ r.1 = Returns (output_name demo_env)
  ∧ fs demo_world !! output_path demo_env = None
  ∧ fs r.2 !! output_path demo_env
    = Some (VideoFile (Video mp4v 15 (480, 640) [])).
Proof. vm_compute. done. Qed.

(** C2, amended: when the sign-image table is empty, or the normalised
    text is empty after trimming (the text has no alphanumeric
    character), [create_sign_video] raises a [ValueError] with a
    descriptive message and leaves the world, and so the disk, as it
    was: no output file is produced. *)
Theorem C2_rejected_without_output e w text :
  bool_decide (sign_images w = []) || is_empty (strip (clean text)) = true →
  create_sign_video e text w
  = (Raises (ValueError (if bool_decide (sign_images w = [])
                         then "Sign images not loaded"
                         else "No valid characters in text")), w).
Proof.
  intros H. destruct (bool_decide (sign_images w = [])) eqn:He.
  - apply bool_decide_eq_true in He. by apply run_not_loaded.
  - apply bool_decide_eq_false in He. simpl in H.
    apply run_blank; [done|]. unfold normalize. by rewrite H.
Qed.

Lemma C2_rejected_without_output_witness :
  create_sign_video demo_env (py"?! ...") demo_world
  = (Raises (ValueError "No valid characters in text"), demo_world).
Proof.
  apply (C2_rejected_without_output demo_env demo_world (py"?! ...")).
  reflexivity.
Defined.

(** Once the recognition call is reached, the temp file is removed
    whatever that call does. *)
Lemma speech_to_text_cleans_after_recognition sp path w :
  from_file sp path = Returns tt →
  record sp (path ++ "_fixed.wav")%string = Returns tt →
  fs (speech_to_text sp path w).2 !! (path ++ "_fixed.wav")%string = None.
Proof.
  intros Hf Hr. unfold speech_to_text.
  unfold mbind at 1, M_bind at 1, lift at 1. rewrite Hf.
  unfold mbind at 1, M_bind at 1, export, modify.
  unfold mbind at 1, M_bind at 1, lift at 1. rewrite Hr.
  unfold try_finally, try_except, lift, mbind, M_bind, mret, M_ret, raise.
  destruct (recognize_google sp _) as [text|ex]; simpl.
  - rewrite bool_decide_eq_true_2 by (rewrite lookup_insert_eq; eauto).
    simpl. apply lookup_delete_eq.
  - destruct ex; simpl;
      (rewrite bool_decide_eq_true_2 by (rewrite lookup_insert_eq; eauto));
      simpl; apply lookup_delete_eq.
Qed.

(** C3: when reading the re-encoded WAV raises (the [with sr.AudioFile]
    block, which comes before the [try] ... [finally]), the exception
    leaves [speech_to_text] and the temp file stays on disk. *)
Theorem C3_wav_left_behind_when_reading_fails :
  let r := speech_to_text read_fails upload_path upload_world in
  fs upload_world !! (upload_path ++ "_fixed.wav")%string = None
  ∧ r.1 = Raises (OtherException "error reading WAV data")
  ∧ fs r.2 !! (upload_path ++ "_fixed.wav")%string = Some (WavFile upload_path).
Proof. vm_compute. done. Qed.

Lemma filter_remove_if (s : list ascii) :
  filter (λ c, isalnum c || isspace c = true) s
  = remove_if (λ c, negb (isalnum c) && negb (isspace c)) s.
Proof.
  induction s as [|c s IH]; [done|]. rewrite filter_cons. simpl.
  destruct (decide _) as [H|H]; destruct (isalnum c), (isspace c);
    simpl in *; try done; by rewrite IH.
Qed.

Lemma clean_spec_normalized text : clean text = spec_normalized text.
Proof. apply filter_remove_if. Qed.

Lemma alnum_not_space c : isalnum c = true → isspace c = false.
Proof. destruct c as [[] [] [] [] [] [] [] []]; done. Qed.

(** The normaliser rejects exactly the texts without an alphanumeric
    character. *)
Lemma normalize_raises_iff text :
  normalize text = Raises (ValueError "No valid characters in text")
  ↔ Forall (λ c, isalnum c = false) text.
Proof.
  unfold normalize.
  destruct (is_empty (strip (clean text))) eqn:He.
  - split; [intros _|done]. apply strip_empty_iff in He.
    rewrite Forall_forall in *. intros c Hin.
    destruct (isalnum c) eqn:Hc; [|done].
    assert (Hl : lower_char c ∈ clean text).
    { unfold clean. apply list_elem_of_filter. split.
      - by rewrite isalnum_lower, Hc.
      - apply list_elem_of_In, in_map. by apply list_elem_of_In. }
    specialize (He _ Hl). rewrite <- isalnum_lower in Hc.
    apply alnum_not_space in Hc. congruence.
  - split; [done|]. intros Hall. exfalso.
    assert (Hsp : Forall (λ c, isspace c = true) (clean text)).
    { rewrite Forall_forall in *. intros c Hin.
      apply list_elem_of_filter in Hin as [Hc Hin].
      apply list_elem_of_In, in_map_iff in Hin as (c0 & <- & Hin0).
      apply list_elem_of_In in Hin0. specialize (Hall _ Hin0).
      rewrite isalnum_lower, Hall in Hc. done. }
    apply strip_empty_iff in Hsp. congruence.
Qed.

(** C4: the normaliser returns the lowercase form of the text with
    every character removed that is neither alphanumeric nor
    whitespace, and raises exactly when that string is empty after
    trimming; "Hello, World! 123" becomes "hello world 123". *)
Theorem C4_normalizer text :
  normalize text
  = (if is_empty (strip (spec_normalized text))
     then Raises (ValueError "No valid characters in text")
     else Returns (spec_normalized text))
  ∧ normalize (py"Hello, World! 123") = Returns (py"hello world 123").
Proof.
  split; [|reflexivity]. unfold normalize. by rewrite clean_spec_normalized.
Qed.

Lemma image_of_nonempty w c img : image_of w c = Some img → sign_images w ≠ [].
Proof. unfold image_of. by destruct (sign_images w). Qed.

(** C5: with 'a' and 'b' in the table and the text "ab", the video
    holds, in this order, fade-in (2 frames), hold (2) and fade-out (2)
    of the labelled 'a', then fade-in (2), hold (2) and two more hold
    frames of the labelled 'b', which is the last character: 6 frames
    for each, 12 in all. *)
Theorem C5_ab_frames e w img_a img_b :
  loaded w = true →
  image_of w "a"%char = Some img_a → image_of w "b"%char = Some img_b →
  existsb (opens e) fourccs = true →
  ∃ w' v,
    create_sign_video e (py"ab") w = (Returns (output_name e), w')
    ∧ fs w' !! output_path e = Some (VideoFile v)
    ∧ let A := labelled e 640 480 "a"%char img_a in
      let B := labelled e 640 480 "b"%char img_b in
      v_frames v
      = (fade_in 640 480 A ++ hold A ++ fade_out 640 480 A)
        ++ (fade_in 640 480 B ++ hold B ++ extra_hold B)
      ∧ length (fade_in 640 480 A ++ hold A ++ fade_out 640 480 A)
        = Z.to_nat char_frames
      ∧ length (fade_in 640 480 B ++ hold B ++ extra_hold B)
        = Z.to_nat char_frames
      ∧ length (v_frames v) = 12%nat.
Proof.
  intros Hw Ha Hb Hopen.
  pose proof (image_of_nonempty _ _ _ Ha) as Hne.
  destruct (refused_or_open e)
    as [Hall | (before & name & c & after & Hsplit & Hbf & Hc)].
  { by destruct (existsb_open e Hopen). }
  eexists _, _. split.
  { apply run_ok with (clean_text := py"ab") (name := name) (after := after);
      done. }
  split; [apply lookup_insert_eq|].
  unfold render.
  change (enumerate (py"ab")) with [(0, "a"%char); (1, "b"%char)].
  cbn [map concat]. unfold frames_of. cbn [fst snd]. rewrite Ha, Hb. done.
Qed.

Lemma C5_ab_frames_witness :
  ∃ w' v,
    create_sign_video ab_env (py"ab") ab_world = (Returns (output_name ab_env), w')
    ∧ fs w' !! output_path ab_env = Some (VideoFile v)
    ∧ let A := labelled ab_env 640 480 "a"%char (Resize (Imread "a.jpg" 512 384) 480 640) in
      let B := labelled ab_env 640 480 "b"%char (Resize (Imread "b.jpg" 512 384) 480 640) in
      v_frames v
      = (fade_in 640 480 A ++ hold A ++ fade_out 640 480 A)
        ++ (fade_in 640 480 B ++ hold B ++ extra_hold B)
      ∧ length (fade_in 640 480 A ++ hold A ++ fade_out 640 480 A)
        = Z.to_nat char_frames
      ∧ length (fade_in 640 480 B ++ hold B ++ extra_hold B)
        = Z.to_nat char_frames
      ∧ length (v_frames v) = 12%nat.
Proof.
  apply (C5_ab_frames ab_env ab_world); reflexivity.
Defined.

Example ab_world_table : map fst (sign_images ab_world) = py"ab".
Proof. reflexivity. Qed.

(** ** Frame sizes *)

Lemma frames_of_shape e h w tbl n ic :
  (∀ c img, tbl c = Some img → shape img = (h, w)) →
  Forall (λ fr, shape fr = (h, w)) (frames_of e h w tbl n ic).
Proof.
  intros Htbl. unfold frames_of.
  destruct (decide (ic.2 = " "%char)); [by repeat constructor|].
  destruct (tbl ic.2) as [img|] eqn:Himg; [|constructor].
  pose proof (Htbl _ _ Himg) as Hs.
  unfold sign_frames. destruct (negb _); by repeat constructor.
Qed.

Lemma render_shape e h w tbl s :
  (∀ c img, tbl c = Some img → shape img = (h, w)) →
  Forall (λ fr, shape fr = (h, w)) (render e h w tbl s).
Proof.
  intros Htbl. unfold render. apply Forall_concat, Forall_forall.
  intros frames Hin. apply list_elem_of_In, in_map_iff in Hin as (ic & <- & _).
  by apply frames_of_shape.
Qed.

Lemma image_of_shape w c img :
  loaded w = true → image_of w c = Some img → shape img = (640, 480).
Proof.
  intros Hw. unfold image_of.
  destruct (dict_get c (sign_images w)) as [l|] eqn:Hget; [|done].
  destruct (loaded_entry _ _ _ Hw Hget) as (_ & img' & Hl & Hs).
  simpl. rewrite Hl. by intros [= <-].
Qed.

(** C6: every frame of the video that a call leaves on disk has the
    shape of the first image of the table, 640 rows by 480 columns
    (480 wide, 640 high), which is also the frame size the writer was
    opened with; a call that raises writes no frame at all. *)
Theorem C6_frame_size e w text :
  loaded w = true →
  match create_sign_video e text w with
  | (Returns filename, w') =>
      ∃ v c l rest first_img,
        sign_images w = (c, l) :: rest ∧ heap w !! l = Some first_img
        ∧ fs w' !! path_join OUTPUT_FOLDER filename = Some (VideoFile v)
        ∧ v_size v = (480, 640)
        ∧ Forall (λ fr, shape fr = shape first_img ∧ shape fr = (640, 480))
                 (v_frames v)
  | (Raises _, w') => fs w' = fs w
  end.
Proof.
  intros Hw.
  destruct (run_cases e text w Hw)
    as [[_ ->] | [(_ & _ & ->) | [(_ & _ & _ & ->)
        | (Hne & _ & before & name & c & after & _ & _ & _ & ->)]]];
    try done.
  destruct (first_image w Hw Hne) as (c0 & l0 & rest & img & Hs & Hl & Hsh).
  eexists _, c0, l0, rest, img. split; [done|]. split; [done|].
  split; [apply lookup_insert_eq|]. split; [done|]. simpl.
  eapply Forall_impl; [apply render_shape|].
  - intros c1 img1. by apply image_of_shape.
  - intros fr Hfr. simpl in Hfr. by rewrite Hsh.
Qed.

Lemma C6_frame_size_witness :
  match create_sign_video demo_env (py"Namaste 2025") demo_world with
  | (Returns filename, w') =>
      ∃ v c l rest first_img,
        sign_images demo_world = (c, l) :: rest
        ∧ heap demo_world !! l = Some first_img
        ∧ fs w' !! path_join OUTPUT_FOLDER filename = Some (VideoFile v)
        ∧ v_size v = (480, 640)
        ∧ Forall (λ fr, shape fr = shape first_img ∧ shape fr = (640, 480))
                 (v_frames v)
  | (Raises _, w') => fs w' = fs demo_world
  end.
Proof. apply (C6_frame_size demo_env demo_world (py"Namaste 2025")). reflexivity. Defined.

(** ** Codec fallback *)

Lemma split_codecs before c after :
  fourccs = before ++ c :: after →
  ∃ before' name after',
    codecs_to_try = before' ++ (name, c) :: after'
    ∧ map snd before' = before.
Proof.
  unfold fourccs. intros H.
  apply map_eq_app in H as (before' & rest & Hsplit & Hb & Hrest).
  apply map_eq_cons in Hrest as ([name c'] & after' & -> & Hc & _).
  simpl in Hc. subst c'. by exists before', name, after'.
Qed.

(** C7: the codecs are tried in the order avc1, H264, X264, mp4v; the
    video is written with the first one that opens, every writer that
    did not open having been released; and the call raises exactly when
    none of the four opens. *)
Theorem C7_codec_fallback e w text :
  loaded w = true →
  bool_decide (sign_images w = []) = false →
  is_empty (strip (clean text)) = false →
  fourccs = map VideoWriter_fourcc ["avc1"; "H264"; "X264"; "mp4v"]%string
  ∧ ((∃ ex w', create_sign_video e text w = (Raises ex, w'))
     ↔ Forall (refused e) fourccs)
  ∧ (Forall (refused e) fourccs →
     create_sign_video e text w
     = (Raises (ValueError "Could not create video file with any codec"),
        set_cv_log (λ l, l ++ failed fourccs) w))
  ∧ (∀ before c after,
       fourccs = before ++ c :: after →
       Forall (refused e) before → opens e c = true →
       ∃ w' frames,
         create_sign_video e text w = (Returns (output_name e), w')
         ∧ fs w' !! output_path e
           = Some (VideoFile (Video c fps (480, 640) frames))
         ∧ cv_log w'
           = cv_log w ++ failed before ++ [Construct c true; Release c]).
Proof.
  intros Hw Hne Hs. apply bool_decide_eq_false in Hne.
  assert (Hn : normalize text = Returns (clean text))
    by (unfold normalize; by rewrite Hs).
  assert (Hopen : ∀ before c after,
    fourccs = before ++ c :: after →
    Forall (refused e) before → opens e c = true →
    create_sign_video e text w
    = (Returns (output_name e), composed e (clean text) c before w)).
  { intros before c after Hsplit Hb Hc.
    destruct (split_codecs _ _ _ Hsplit) as (before' & name & after' & Hs' & <-).
    by apply run_ok with (name := name) (after := after'). }
  split; [reflexivity|]. split; [|split].
  - split.
    + intros (ex & w' & Hr).
      destruct (refused_or_open e)
        as [Hall | (before & name & c & after & Hsplit & Hb & Hc)]; [done|].
      rewrite (run_ok e text w (clean text) before name c after) in Hr; done.
    + intros Hall. eexists _, _. by apply run_refused with (clean_text := clean text).
  - intros Hall. by apply run_refused with (clean_text := clean text).
  - intros before c after Hsplit Hb Hc.
    eexists _, _. split; [by eapply Hopen|].
    split; [apply lookup_insert_eq | done].
Qed.

Lemma C7_codec_fallback_witness :
  fourccs = map VideoWriter_fourcc ["avc1"; "H264"; "X264"; "mp4v"]%string
  ∧ ((∃ ex w', create_sign_video demo_env (py"ok") demo_world = (Raises ex, w'))
     ↔ Forall (refused demo_env) fourccs)
  ∧ (Forall (refused demo_env) fourccs →
     create_sign_video demo_env (py"ok") demo_world
     = (Raises (ValueError "Could not create video file with any codec"),
        set_cv_log (λ l, l ++ failed fourccs) demo_world))
  ∧ (∀ before c after,
       fourccs = before ++ c :: after →
       Forall (refused demo_env) before → opens demo_env c = true →
       ∃ w' frames,
         create_sign_video demo_env (py"ok") demo_world
         = (Returns (output_name demo_env), w')
         ∧ fs w' !! output_path demo_env
           = Some (VideoFile (Video c fps (480, 640) frames))
         ∧ cv_log w'
           = cv_log demo_world ++ failed before ++ [Construct c true; Release c]).
Proof.
  apply (C7_codec_fallback demo_env demo_world (py"ok")); reflexivity.
Defined.

(** With only mp4v available: three writers constructed and released,
    then the mp4v writer, released at the end. *)
Example fallback_to_mp4v :
  cv_log (create_sign_video demo_env (py"ok") demo_world).2
  = [Construct (VideoWriter_fourcc "avc1") false; Release (VideoWriter_fourcc "avc1");
     Construct (VideoWriter_fourcc "H264") false; Release (VideoWriter_fourcc "H264");
     Construct (VideoWriter_fourcc "X264") false; Release (VideoWriter_fourcc "X264");
     Construct mp4v true; Release mp4v].
Proof. reflexivity. Qed.

(** ** The request handler *)

Lemma is_empty_nil (s : str) : is_empty s = true ↔ s = [].
Proof. by destruct s. Qed.

(** C8: [/text-to-sign] answers 400 exactly when the "text" field is
    missing or is a string that is empty after stripping; for any other
    string it answers 500 with the error text when [create_sign_video]
    raises, and otherwise the file name together with the stripped
    text. *)
Theorem C8_text_to_sign e data w :
  (status_of (text_to_sign e data w).1 = 400
   ↔ data !! "text"%string = None
     ∨ ∃ s, data !! "text"%string = Some (JString s) ∧ strip s = [])
  ∧ ∀ s, data !! "text"%string = Some (JString s) → strip s ≠ [] →
      match create_sign_video e (strip s) w with
      | (Returns file, w') =>
          text_to_sign e data w = (Ok200 file (strip s), w')
      | (Raises ex, w') =>
          text_to_sign e data w = (HTTPError 500 (exn_str ex), w')
      end.
Proof.
  unfold text_to_sign, text_to_sign_body. split.
  - destruct (data !! "text"%string) as [[| | |s| |]|] eqn:Hd; simpl;
      try (split; [done | intros [?|(s' & ? & _)]; done]).
    + destruct (is_empty (strip s)) eqn:He; simpl.
      * apply is_empty_nil in He. split; [|done]. intros _. right. eauto.
      * assert (strip s ≠ []) by (intros H0%is_empty_nil; congruence).
        destruct (create_sign_video e (strip s) w) as [[file|ex] w']; simpl;
          (split; [done | intros [?|(s' & [= <-] & ?)]; done]).
    + split; [by left | done].
  - intros s Hd Hs. rewrite Hd. simpl.
    destruct (is_empty (strip s)) eqn:He; [by apply is_empty_nil in He|].
    by destruct (create_sign_video e (strip s) w) as [[file|ex] w'].
Qed.

Example text_to_sign_blank :
  (text_to_sign demo_env {[ "text"%string := JString (py"   ") ]} demo_world).1
  = HTTPError 400 "Text is required".
Proof. reflexivity. Qed.

Example text_to_sign_hello :
  (text_to_sign demo_env {[ "text"%string := JString (py" hello ") ]} demo_world).1
  = Ok200 "sign_20250101_120000_0a1b2c3d.mp4" (py"hello").
Proof. reflexivity. Qed.

Example text_to_sign_no_codec :
  (text_to_sign no_codec_env {[ "text"%string := JString (py"hello") ]}
     (startup no_codec_env)).1
  = HTTPError 500 "Could not create video file with any codec".
Proof. reflexivity. Qed.

(** ** The table is read-only *)

(** C9: a call of [create_sign_video] leaves the table as it was: the
    dict has the same entries, and every array an entry points to has
    the contents it had before. The labelled frames are new arrays at
    the end of the heap. *)
Theorem C9_table_untouched e text w :
  loaded w = true →
  sign_images (create_sign_video e text w).2 = sign_images w
  ∧ (∃ arrays, heap (create_sign_video e text w).2 = heap w ++ arrays)
  ∧ ∀ c l img,
      dict_get c (sign_images w) = Some l → heap w !! l = Some img →
      heap (create_sign_video e text w).2 !! l = Some img.
Proof.
  intros Hw.
  destruct (run_cases e text w Hw)
    as [[_ ->] | [(_ & _ & ->) | [(_ & _ & _ & ->)
        | (Hne & _ & before & name & c & after & _ & _ & _ & ->)]]];
    simpl; (split; [done|]); (split; [|by intros; apply lookup_app_l_Some || done]);
    try (exists []; by rewrite app_nil_r).
  by eexists.
Qed.

Lemma C9_table_untouched_witness :
  sign_images (create_sign_video demo_env (py"abc") demo_world).2
  = sign_images demo_world
  ∧ (∃ arrays, heap (create_sign_video demo_env (py"abc") demo_world).2
               = heap demo_world ++ arrays)
  ∧ ∀ c l img,
      dict_get c (sign_images demo_world) = Some l →
      heap demo_world !! l = Some img →
      heap (create_sign_video demo_env (py"abc") demo_world).2 !! l = Some img.
Proof. apply (C9_table_untouched demo_env (py"abc") demo_world). reflexivity. Defined.

(** The stored image of 'a' before and after composing "abc": the same
    unlabelled array; the labelled copy sits at a new address. *)
Example stored_a_unlabelled :
  let w' := (create_sign_video demo_env (py"abc") demo_world).2 in
  heap demo_world !! 0%nat = Some (Resize (Imread "a.jpg" 512 384) 480 640)
  ∧ heap w' !! 0%nat = Some (Resize (Imread "a.jpg" 512 384) 480 640)
  ∧ heap w' !! 36%nat
    = Some (labelled demo_env 640 480 "a"%char (Resize (Imread "a.jpg" 512 384) 480 640)).
Proof. vm_compute. done. Qed.

(** ** Whitespace other than the space character *)

Lemma space_lower c : isspace c = true → lower_char c = c.
Proof. destruct c as [[] [] [] [] [] [] [] []]; done. Qed.

Lemma clean_app t1 t2 : clean (t1 ++ t2) = clean t1 ++ clean t2.
Proof. unfold clean, lower. by rewrite map_app, filter_app. Qed.

Lemma clean_space c t : isspace c = true → clean (c :: t) = c :: clean t.
Proof.
  intros Hc. unfold clean, lower. simpl. rewrite filter_cons.
  rewrite (space_lower c Hc), Hc, orb_true_r. by destruct (decide _).
Qed.

Lemma space_not_key w c :
  loaded w = true → isspace c = true → dict_get c (sign_images w) = None.
Proof.
  intros Hw Hc. destruct (dict_get c (sign_images w)) as [l|] eqn:Hget; [|done].
  destruct (loaded_entry _ _ _ Hw Hget) as (Ha & _).
  destruct (alphabet_facts c Ha) as (_ & Hs & _). congruence.
Qed.

(** C10: a whitespace character other than ' ' (a tab, a newline)
    survives normalisation, so a text in which it accompanies an
    alphanumeric character is accepted; it contributes no frame: the
    composer loop does nothing for it. *)
Theorem C10_other_whitespace w c :
  loaded w = true → isspace c = true → bool_decide (c = " "%char) = false →
  (∀ t1 t2, clean (t1 ++ c :: t2) = clean t1 ++ c :: clean t2)
  ∧ (∀ t1 t2 a, a ∈ t1 ++ t2 → isalnum a = true →
       normalize (t1 ++ c :: t2) = Returns (clean t1 ++ c :: clean t2))
  ∧ contribution w c = 0%nat
  ∧ ∀ e wr h w0 clean_text i,
      emit e wr h w0 clean_text (i, c) w = (Returns tt, w).
Proof.
  intros Hw Hc Hne. apply bool_decide_eq_false in Hne.
  pose proof (space_not_key w c Hw Hc) as Hkey.
  assert (Hclean : ∀ t1 t2, clean (t1 ++ c :: t2) = clean t1 ++ c :: clean t2).
  { intros t1 t2. by rewrite clean_app, clean_space. }
  split; [done|]. split; [|split].
  - intros t1 t2 a Hin Ha. rewrite <- Hclean.
    destruct (normalize (t1 ++ c :: t2)) as [s|ex] eqn:Hn.
    + unfold normalize in Hn. by destruct (is_empty _); inversion Hn.
    + assert (Hr : normalize (t1 ++ c :: t2)
                   = Raises (ValueError "No valid characters in text")).
      { unfold normalize in *. by destruct (is_empty _). }
      apply normalize_raises_iff in Hr. rewrite Forall_forall in Hr.
      assert (Hin' : a ∈ t1 ++ c :: t2).
      { apply elem_of_app in Hin as [?|?]; apply elem_of_app; [by left|].
        right. by right. }
      specialize (Hr a Hin'). congruence.
  - unfold contribution, dict_mem. rewrite Hkey. by destruct (decide _).
  - intros. by apply emit_unknown.
Qed.

Lemma C10_other_whitespace_witness :
  (∀ t1 t2, clean (t1 ++ tab :: t2) = clean t1 ++ tab :: clean t2)
  ∧ (∀ t1 t2 a, a ∈ t1 ++ t2 → isalnum a = true →
       normalize (t1 ++ tab :: t2) = Returns (clean t1 ++ tab :: clean t2))
  ∧ contribution demo_world tab = 0%nat
  ∧ ∀ e wr h w0 clean_text i,
      emit e wr h w0 clean_text (i, tab) demo_world = (Returns tt, demo_world).
Proof. apply (C10_other_whitespace demo_world tab); reflexivity. Defined.

(** "a<tab>b" is accepted with the tab kept, and gives as many frames
    as "ab". *)
Example tab_between_letters :
  normalize [ "a"%char; tab; "b"%char ] = Returns [ "a"%char; tab; "b"%char ]
  ∧ sum_list (map (contribution demo_world) [ "a"%char; tab; "b"%char ]) = 12%nat.
Proof. split; reflexivity. Qed.

(** * Further properties of the code *)

(** ** Loading *)

Lemma dict_set_fresh {V} k (v : V) d :
  k ∉ map fst d → dict_set k v d = d ++ [(k, v)].
Proof.
  induction d as [|[k' v'] d IH]; simpl; [done|]. intros Hk.
  destruct (decide (k = k')) as [->|Hne].
  - exfalso. apply Hk. left.
  - rewrite IH; [done|]. intros Hin. apply Hk. by right.
Qed.

Lemma load_one_run e c w :
  load_one e (c, String c ".jpg") w
  = (Returns tt,
     match signs_dir e (String c ".jpg") with
     | Some (h, wd) =>
         set_sign_images (dict_set c (length (heap w)))
           (set_heap (λ hp, hp ++ [Resize (Imread (String c ".jpg") h wd) 480 640]) w)
     | None => w
     end).
Proof.
  unfold load_one. by destruct (signs_dir e (String c ".jpg")) as [[h wd]|].
Qed.

Lemma load_entries_run e cs w :
  NoDup cs → (∀ c, c ∈ cs → c ∉ map fst (sign_images w)) →
  for_each (map (λ c, (c, String c ".jpg")) cs) (load_one e) w
  = (Returns tt,
     {| heap := heap w ++ stored_images e cs;
        sign_images :=
          sign_images w
          ++ zip (present e cs) (seq (length (heap w)) (length (present e cs)));
        fs := fs w; cv_log := cv_log w |}).
Proof.
  revert w. induction cs as [|c cs IH]; intros w Hnd Hfresh.
  - simpl. destruct w; simpl. by rewrite !app_nil_r.
  - apply NoDup_cons in Hnd as [Hc Hnd].
    cbn [map for_each]. erewrite bind_returns by apply load_one_run.
    unfold present, stored_images. cbn [List.filter omap list_omap].
    destruct (signs_dir e (String c ".jpg")) as [[h wd]|] eqn:Hdir.
    + rewrite IH; [|done|].
      * simpl. rewrite dict_set_fresh by (apply Hfresh; left).
        rewrite length_app. simpl.
        rewrite <- !app_assoc. simpl.
        by replace (length (heap w) + 1)%nat with (S (length (heap w))) by lia.
      * intros c' Hc'. simpl.
        rewrite dict_set_fresh by (apply Hfresh; left).
        rewrite map_app. simpl. intros [Hin|Hin]%elem_of_app.
        -- apply (Hfresh c'); [by right | done].
        -- apply list_elem_of_singleton in Hin. by subst.
    + simpl. rewrite IH; [done | done |]. intros c' Hc'. apply Hfresh. by right.
Qed.

Lemma alphabet_NoDup : NoDup alphabet.
Proof. apply (bool_decide_unpack _). by vm_compute. Qed.

(** X1: after startup the table holds exactly the characters of the
    alphabet whose image file exists and decodes, in the order of the
    alphabet, the n-th of them pointing to the n-th array of the heap,
    which is that file resized to 480 x 640; a missing or unreadable
    file is skipped without error. Nothing is written to disk. *)
Theorem X1_startup_table e :
  sign_images (startup e)
  = zip (present e alphabet) (seq 0 (length (present e alphabet)))
  ∧ heap (startup e) = stored_images e alphabet
  ∧ fs (startup e) = ∅
  ∧ cv_log (startup e) = [].
Proof.
  unfold startup, load_sign_images, mappings.
  rewrite load_entries_run; [done | apply alphabet_NoDup |].
  intros c _. simpl. apply not_elem_of_nil.
Qed.

Example startup_ab :
  sign_images ab_world = [("a"%char, 0%nat); ("b"%char, 1%nat)]
  ∧ present ab_env alphabet = py"ab".
Proof. split; reflexivity. Qed.

(** ** What a request can change *)

Lemma touches_refl paths w : touches paths w w.
Proof. split; [done|]. split; [|done]. exists []. by rewrite app_nil_r. Qed.

Lemma touches_trans ps1 ps2 w1 w2 w3 :
  touches ps1 w1 w2 → touches ps2 w2 w3 → touches (ps1 ++ ps2) w1 w3.
Proof.
  intros (Hs1 & [a1 Hh1] & Hf1) (Hs2 & [a2 Hh2] & Hf2).
  split; [congruence|]. split.
  - exists (a1 ++ a2). by rewrite Hh2, Hh1, app_assoc.
  - intros p Hp. rewrite Hf2, Hf1; [done|..];
      intros Hin; apply Hp, elem_of_app; auto.
Qed.

Lemma touches_weaken ps1 ps2 w w' :
  ps1 ⊆ ps2 → touches ps1 w w' → touches ps2 w w'.
Proof.
  intros Hsub (Hs & Hh & Hf). repeat split; [done..|].
  intros p Hp. apply Hf. intros Hin. by apply Hp, Hsub.
Qed.

Lemma touches_set_fs p f w :
  touches [p] w (set_fs (λ d, <[p := f]> d) w).
Proof.
  split; [done|]. split; [exists []; simpl; by rewrite app_nil_r|].
  intros q Hq. simpl. apply lookup_insert_ne. intros ->. apply Hq. left.
Qed.

Lemma touches_delete p w : touches [p] w (set_fs (delete p) w).
Proof.
  split; [done|]. split; [exists []; simpl; by rewrite app_nil_r|].
  intros q Hq. simpl. apply lookup_delete_ne. intros ->. apply Hq. left.
Qed.

Lemma touches_loaded paths w w' :
  touches paths w w' → loaded w = true → loaded w' = true.
Proof.
  intros (Hs & [arrays Hh] & _). apply loaded_extends; [done|].
  intros l a Hl. rewrite Hh. by apply lookup_app_l_Some.
Qed.

Lemma touches_image_of paths w w' c :
  touches paths w w' → loaded w = true → image_of w' c = image_of w c.
Proof.
  intros (Hs & [arrays Hh] & _) Hw. unfold image_of. rewrite Hs.
  destruct (dict_get c (sign_images w)) as [l|] eqn:Hget; [|done].
  destruct (loaded_entry _ _ _ Hw Hget) as (_ & img & Hl & _).
  simpl. rewrite Hh, Hl. by apply lookup_app_l_Some.
Qed.

Lemma create_touches e text w :
  loaded w = true →
  touches [output_path e] w (create_sign_video e text w).2.
Proof.
  intros Hw.
  destruct (run_cases e text w Hw)
    as [[_ ->] | [(_ & _ & ->) | [(_ & _ & _ & ->)
        | (_ & _ & before & name & c & after & _ & _ & _ & ->)]]];
    try apply touches_refl.
  - split; [done|]. split; [|done]. exists []. simpl. by rewrite app_nil_r.
  - split; [done|]. split; [by eexists|].
    intros p Hp. simpl. apply lookup_insert_ne. intros <-. apply Hp. left.
Qed.

(** The transcriber without its bookkeeping: what each stage hands on. *)
Lemma speech_to_text_run sp path w :
  speech_to_text sp path w
  = match from_file sp path with
    | Raises ex => (Raises ex, w)
    | Returns _ =>
        let wav_path := (path ++ "_fixed.wav")%string in
        let w1 := set_fs (λ d, <[wav_path := WavFile path]> d) w in
        match record sp wav_path with
        | Raises ex => (Raises ex, w1)
        | Returns _ =>
            (match recognize_google sp wav_path with
             | Returns text => Returns (strip (lower text))
             | Raises UnknownValueError =>
                 Raises (ValueError "Could not understand audio")
             | Raises (RequestError msg) =>
                 Raises (ValueError ("Google Speech Recognition error: " ++ msg))
             | Raises ex => Raises ex
             end,
             set_fs (delete wav_path) w1)
        end
    end.
Proof.
  unfold speech_to_text.
  unfold mbind at 1, M_bind at 1, lift at 1.
  destruct (from_file sp path) as [[]|ex]; [|done].
  unfold mbind at 1, M_bind at 1, export, modify.
  unfold mbind at 1, M_bind at 1, lift at 1.
  destruct (record sp _) as [[]|ex]; [|done].
  unfold try_finally, try_except, lift, mbind, M_bind, mret, M_ret, raise.
  destruct (recognize_google sp _) as [text|ex]; simpl.
  - by rewrite bool_decide_eq_true_2 by (rewrite lookup_insert_eq; eauto).
  - destruct ex; simpl;
      by rewrite bool_decide_eq_true_2 by (rewrite lookup_insert_eq; eauto).
Qed.

Lemma speech_to_text_touches sp path w :
  touches [(path ++ "_fixed.wav")%string] w (speech_to_text sp path w).2.
Proof.
  rewrite speech_to_text_run.
  destruct (from_file sp path) as [[]|ex]; [|apply touches_refl].
  simpl. destruct (record sp _) as [[]|ex]; simpl.
  - split; [done|]. split; [exists []; simpl; by rewrite app_nil_r|].
    intros q Hq. simpl.
    assert (q ≠ (path ++ "_fixed.wav")%string) by (intros ->; apply Hq; left).
    by rewrite lookup_delete_ne, lookup_insert_ne.
  - apply touches_set_fs.
Qed.

Lemma text_to_sign_world e data w :
  (text_to_sign e data w).2 = w
  ∨ ∃ text, (text_to_sign e data w).2 = (create_sign_video e text w).2.
Proof.
  unfold text_to_sign, text_to_sign_body.
  destruct (default _ _) as [| | |s| |]; try by left.
  destruct (is_empty (strip s)); [by left|]. right. exists (strip s).
  by destruct (create_sign_video e (strip s) w) as [[file|ex] w'].
Qed.

Lemma text_to_sign_touches e data w :
  loaded w = true → touches [output_path e] w (text_to_sign e data w).2.
Proof.
  intros Hw. destruct (text_to_sign_world e data w) as [->|[text ->]].
  - apply touches_refl.
  - by apply create_touches.
Qed.

Lemma transcribe_touches e sp name w :
  loaded w = true →
  touches [(name ++ "_fixed.wav")%string; output_path e] w
    (transcribe_and_sign e sp name w).2.
Proof.
  intros Hw. pose proof (speech_to_text_touches sp name w) as Ht.
  unfold transcribe_and_sign, mbind, M_bind.
  destruct (speech_to_text sp name w) as [[text|ex] w1]; simpl in Ht.
  - destruct (is_empty text).
    + simpl. eapply touches_weaken; [|exact Ht]. paths_incl.
    + pose proof (create_touches e text w1 (touches_loaded _ _ _ Ht Hw)) as Hc.
      destruct (create_sign_video e text w1) as [[file|ex] w2]; simpl in *;
        exact (touches_trans _ _ _ _ _ Ht Hc).
  - simpl. eapply touches_weaken; [|exact Ht]. paths_incl.
Qed.

Lemma finally_touches name w :
  touches [name] w
    (if bool_decide (name ≠ ""%string) && bool_decide (is_Some (fs w !! name))
     then set_fs (delete name) w else w).
Proof. destruct (_ && _); [apply touches_delete | apply touches_refl]. Qed.

Lemma speech_to_sign_world e sp rq w :
  (speech_to_sign e sp rq w).2 = (speech_to_sign_body e sp rq w).2.
Proof.
  unfold speech_to_sign.
  by destruct (speech_to_sign_body e sp rq w) as [[[status detail]|[[file text]|ex]] w'].
Qed.

Lemma speech_to_sign_touches e sp rq w :
  loaded w = true →
  touches (may_touch (PostSpeech e sp rq)) w (speech_to_sign e sp rq w).2.
Proof.
  intros Hw. rewrite speech_to_sign_world. unfold speech_to_sign_body. simpl.
  destruct (tmp_file rq) as [name|ex]; [|apply touches_refl].
  pose proof (touches_set_fs name UploadFile w) as H0.
  destruct (read_upload rq) as [[]|ex]; simpl.
  - pose proof (transcribe_touches e sp name _ (touches_loaded _ _ _ H0 Hw)) as H1.
    destruct (transcribe_and_sign e sp name _) as [r w1]. simpl in H1.
    pose proof (finally_touches name w1) as H2. simpl.
    eapply touches_weaken; [|exact (touches_trans _ _ _ _ _ (touches_trans _ _ _ _ _ H0 H1) H2)].
    paths_incl.
  - eapply touches_weaken; [|exact H0]. paths_incl.
Qed.

Lemma handle_touches r w :
  loaded w = true → touches (may_touch r) w (handle w r).
Proof.
  intros Hw. destruct r as [e data|e sp rq|name]; simpl handle.
  - by apply text_to_sign_touches.
  - by apply speech_to_sign_touches.
  - apply touches_refl.
Qed.

Lemma serve_touches rs w :
  loaded w = true → touches (flat_map may_touch rs) w (serve rs w).
Proof.
  revert w. induction rs as [|r rs IH]; intros w Hw; [apply touches_refl|].
  pose proof (handle_touches r w Hw) as H1.
  pose proof (IH _ (touches_loaded _ _ _ H1 Hw)) as H2.
  exact (touches_trans _ _ _ _ _ H1 H2).
Qed.


(** What a call leaves on disk, by outcome. *)
Lemma create_outcome e text w :
  loaded w = true →
  match create_sign_video e text w with
  | (Returns filename, w') =>
      filename = output_name e
      ∧ fs w' = <[output_path e :=
                   VideoFile (Video (v_fourcc_of w' e) fps (480, 640)
                                (render e 640 480 (image_of w) (clean text)))]> (fs w)
  | (Raises _, w') => fs w' = fs w
  end.
Proof.
  intros Hw.
  destruct (run_cases e text w Hw)
    as [[_ ->] | [(_ & _ & ->) | [(_ & _ & _ & ->)
        | (_ & _ & before & name & c & after & _ & _ & _ & ->)]]];
    try done.
  split; [done|]. simpl. unfold v_fourcc_of. simpl.
  by rewrite lookup_insert_eq.
Qed.

(** ** The table over the life of the server *)

(** X2: whatever requests a server handles after startup, in whatever
    order and with whatever outcome, the sign-image table is the one
    that startup built: the same entries, each denoting the same
    480 x 640 image. *)
Theorem X2_table_fixed_after_startup e rs :
  loaded (serve rs (startup e)) = true
  ∧ sign_images (serve rs (startup e)) = sign_images (startup e)
  ∧ ∀ c, image_of (serve rs (startup e)) c = image_of (startup e) c.
Proof.
  pose proof (startup_loaded e) as Hw.
  pose proof (serve_touches rs _ Hw) as Ht.
  split; [by eapply touches_loaded|]. split; [apply Ht|].
  intros c. by eapply touches_image_of.
Qed.

(** ** The handlers and the disk *)

(** X3: a [/text-to-sign] request changes at most one file, the one at
    its own output path: an error response (400 or 500) leaves the disk
    exactly as it was, and a 200 response names the file it created,
    which holds the rendered frames. *)
Theorem X3_text_to_sign_disk e data w :
  loaded w = true →
  match text_to_sign e data w with
  | (Ok200 video_file text, w') =>
      video_file = output_name e
      ∧ (∃ v, fs w' !! path_join OUTPUT_FOLDER video_file = Some (VideoFile v)
              ∧ v_frames v = render e 640 480 (image_of w) (clean text))
      ∧ ∀ p, p ≠ output_path e → fs w' !! p = fs w !! p
  | (HTTPError _ _, w') => fs w' = fs w
  end.
Proof.
  intros Hw. unfold text_to_sign, text_to_sign_body.
  destruct (default _ _) as [| | |s| |]; try done.
  destruct (is_empty (strip s)); [done|].
  pose proof (create_outcome e (strip s) w Hw) as Hc.
  destruct (create_sign_video e (strip s) w) as [[file|ex] w']; [|done].
  destruct Hc as [-> Hfs]. split; [done|]. rewrite Hfs. split.
  - eexists. split; [apply lookup_insert_eq | done].
  - intros p Hp. by apply lookup_insert_ne.
Qed.

Lemma X3_text_to_sign_disk_witness :
  match text_to_sign demo_env {[ "text"%string := JString (py" Hi there ") ]} demo_world with
  | (Ok200 video_file text, w') =>
      video_file = output_name demo_env
      ∧ (∃ v, fs w' !! path_join OUTPUT_FOLDER video_file = Some (VideoFile v)
              ∧ v_frames v = render demo_env 640 480 (image_of demo_world) (clean text))
      ∧ ∀ p, p ≠ output_path demo_env → fs w' !! p = fs demo_world !! p
  | (HTTPError _ _, w') => fs w' = fs demo_world
  end.
Proof.
  apply (X3_text_to_sign_disk demo_env
           {[ "text"%string := JString (py" Hi there ") ]} demo_world).
  reflexivity.
Defined.



Lemma has_key_not_blank w text :
  loaded w = true →
  existsb (λ c, dict_mem c (sign_images w)) text = true →
  is_empty (strip text) = false.
Proof.
  intros Hw Hex. apply existsb_exists in Hex as (c & Hin & Hc).
  unfold dict_mem in Hc.
  destruct (dict_get c (sign_images w)) as [l|] eqn:Hget; [|done].
  destruct (loaded_entry _ _ _ Hw Hget) as (Ha & _).
  destruct (alphabet_facts c Ha) as (_ & Hs & _).
  apply list_elem_of_In in Hin.
  pose proof (strip_keeps c text Hin Hs) as Hk.
  destruct (strip text); [by apply elem_of_nil in Hk | done].
Qed.

(** X5: generate, then fetch. For a body whose text, once stripped,
    contains a key of the table, and an OpenCV build with a usable
    codec, [/text-to-sign] answers 200 with the file name and the
    stripped text, and [GET /video/<that name>] then answers with a
    [video/mp4] file response whose file is the video just written. *)
Theorem X5_generate_then_fetch e data w s :
  loaded w = true →
  data !! "text"%string = Some (JString s) →
  existsb (λ c, dict_mem c (sign_images w)) (strip s) = true →
  existsb (opens e) fourccs = true →
  ∃ w' v,
    text_to_sign e data w = (Ok200 (output_name e) (strip s), w')
    ∧ get_video (output_name e) w'
      = inr (FileResponse (output_path e) "video/mp4"
               [("Accept-Ranges", "bytes"); ("Cache-Control", "no-cache")]%string)
    ∧ fs w' !! output_path e = Some (VideoFile v)
    ∧ v_frames v = render e 640 480 (image_of w) (clean (strip s)).
Proof.
  intros Hw Hd Hkey Hopen.
  destruct (has_key_normalizes w (strip s) Hw Hkey) as [Hne Hn].
  pose proof (has_key_not_blank w (strip s) Hw Hkey) as Hblank.
  destruct (refused_or_open e)
    as [Hall | (before & name & c & after & Hsplit & Hb & Hc)].
  { by destruct (existsb_open e Hopen). }
  pose proof (run_ok e (strip s) w _ before name c after Hw Hne Hn Hsplit Hb Hc)
    as Hrun.
  eexists _, _. split; [|split; [|split]].
  - unfold text_to_sign, text_to_sign_body. rewrite Hd. simpl.
    assert (Hss : is_empty (strip s) = false).
    { by destruct (strip s). }
    rewrite Hss, Hrun. reflexivity.
  - unfold get_video. fold (output_path e). simpl.
    by rewrite bool_decide_eq_true_2 by (rewrite lookup_insert_eq; eauto).
  - apply lookup_insert_eq.
  - done.
Qed.

Lemma X5_generate_then_fetch_witness :
  ∃ w' v,
    text_to_sign demo_env {[ "text"%string := JString (py" Hi there ") ]} demo_world
    = (Ok200 (output_name demo_env) (strip (py" Hi there ")), w')
    ∧ get_video (output_name demo_env) w'
      = inr (FileResponse (output_path demo_env) "video/mp4"
               [("Accept-Ranges", "bytes"); ("Cache-Control", "no-cache")]%string)
    ∧ fs w' !! output_path demo_env = Some (VideoFile v)
    ∧ v_frames v
      = render demo_env 640 480 (image_of demo_world) (clean (strip (py" Hi there "))).
Proof.
  apply (X5_generate_then_fetch demo_env
           {[ "text"%string := JString (py" Hi there ") ]} demo_world (py" Hi there "));
    reflexivity.
Defined.

Lemma append_inj_l (d a b : string) : (d ++ a = d ++ b)%string → a = b.
Proof. induction d as [|c d IH]; simpl; [done|]. intros [= H]. by apply IH. Qed.

Lemma path_join_inj dir a b : path_join dir a = path_join dir b → a = b.
Proof. unfold path_join. intros H%append_inj_l. by injection H. Qed.

Lemma frames_of_ext e h w tbl1 tbl2 n ic :
  (∀ c, tbl1 c = tbl2 c) → frames_of e h w tbl1 n ic = frames_of e h w tbl2 n ic.
Proof. intros H. unfold frames_of. by rewrite H. Qed.

Lemma render_ext e h w tbl1 tbl2 s :
  (∀ c, tbl1 c = tbl2 c) → render e h w tbl1 s = render e h w tbl2 s.
Proof.
  intros H. unfold render. f_equal. apply map_ext. intros ic.
  by apply frames_of_ext.
Qed.

Lemma text_to_sign_ok e data w s :
  loaded w = true →
  data !! "text"%string = Some (JString s) →
  existsb (λ c, dict_mem c (sign_images w)) (strip s) = true →
  existsb (opens e) fourccs = true →
  ∃ c before,
    text_to_sign e data w
    = (Ok200 (output_name e) (strip s),
       composed e (clean (strip s)) c before w).
Proof.
  intros Hw Hd Hkey Hopen.
  destruct (has_key_normalizes w (strip s) Hw Hkey) as [Hne Hn].
  pose proof (has_key_not_blank w (strip s) Hw Hkey) as Hblank.
  destruct (refused_or_open e)
    as [Hall | (before & name & c & after & Hsplit & Hb & Hc)].
  { by destruct (existsb_open e Hopen). }
  exists c, (map snd before).
  unfold text_to_sign, text_to_sign_body. rewrite Hd. simpl.
  assert (Hss : is_empty (strip s) = false) by (by destruct (strip s)).
  rewrite Hss.
  by rewrite (run_ok e (strip s) w (clean (strip s)) before name c after).
Qed.

(** X6: two successful [/text-to-sign] requests whose generated file
    names differ leave two videos on disk, each holding the frames of
    its own text: the second request does not disturb the first
    video. *)
Theorem X6_two_requests_two_videos e1 e2 d1 d2 s1 s2 w :
  loaded w = true →
  d1 !! "text"%string = Some (JString s1) →
  d2 !! "text"%string = Some (JString s2) →
  existsb (λ c, dict_mem c (sign_images w)) (strip s1) = true →
  existsb (λ c, dict_mem c (sign_images w)) (strip s2) = true →
  existsb (opens e1) fourccs = true →
  existsb (opens e2) fourccs = true →
  bool_decide (output_name e1 = output_name e2) = false →
  ∃ v1 v2,
    fs (serve [PostText e1 d1; PostText e2 d2] w) !! output_path e1
    = Some (VideoFile v1)
    ∧ v_frames v1 = render e1 640 480 (image_of w) (clean (strip s1))
    ∧ fs (serve [PostText e1 d1; PostText e2 d2] w) !! output_path e2
      = Some (VideoFile v2)
    ∧ v_frames v2 = render e2 640 480 (image_of w) (clean (strip s2)).
Proof.
  intros Hw Hd1 Hd2 Hk1 Hk2 Ho1 Ho2 Hne. apply bool_decide_eq_false in Hne.
  destruct (text_to_sign_ok e1 d1 w s1 Hw Hd1 Hk1 Ho1) as (c1 & b1 & H1).
  pose proof (composed_loaded e1 (clean (strip s1)) c1 b1 w Hw) as Hw1.
  assert (Hk2' : existsb (λ c, dict_mem c
                   (sign_images (composed e1 (clean (strip s1)) c1 b1 w)))
                   (strip s2) = true) by done.
  destruct (text_to_sign_ok e2 d2 _ s2 Hw1 Hd2 Hk2' Ho2) as (c2 & b2 & H2).
  unfold serve. simpl. rewrite H1. simpl. rewrite H2. simpl.
  eexists _, _. split; [|split; [|split]].
  - rewrite lookup_insert_ne; [apply lookup_insert_eq|].
    intros Hp. apply Hne. symmetry. by apply path_join_inj in Hp.
  - done.
  - apply lookup_insert_eq.
  - simpl. apply render_ext. intros c.
    apply (touches_image_of [output_path e1] w); [|done].
    split; [done|]. split; [by eexists|].
    intros p Hp. simpl. apply lookup_insert_ne. intros <-. apply Hp. left.
Qed.

Lemma X6_two_requests_two_videos_witness :
  ∃ v1 v2,
    fs (serve [PostText demo_env {[ "text"%string := JString (py"hello") ]};
               PostText later_env {[ "text"%string := JString (py"bye 2") ]}]
          demo_world) !! output_path demo_env
    = Some (VideoFile v1)
    ∧ v_frames v1
      = render demo_env 640 480 (image_of demo_world) (clean (strip (py"hello")))
    ∧ fs (serve [PostText demo_env {[ "text"%string := JString (py"hello") ]};
                 PostText later_env {[ "text"%string := JString (py"bye 2") ]}]
            demo_world) !! output_path later_env
      = Some (VideoFile v2)
    ∧ v_frames v2
      = render later_env 640 480 (image_of demo_world) (clean (strip (py"bye 2"))).
Proof.
  apply (X6_two_requests_two_videos demo_env later_env
           {[ "text"%string := JString (py"hello") ]}
           {[ "text"%string := JString (py"bye 2") ]}
           (py"hello") (py"bye 2") demo_world); reflexivity.
Defined.

(** ** The text and the video *)

Lemma lower_char_idem c : lower_char (lower_char c) = lower_char c.
Proof. destruct c as [[] [] [] [] [] [] [] []]; reflexivity. Qed.

Lemma clean_idem text : clean (clean text) = clean text.
Proof.
  unfold clean, lower. induction text as [|c text IH]; [done|].
  simpl. rewrite filter_cons.
  destruct (decide (isalnum (lower_char c) || isspace (lower_char c) = true))
    as [Hc|Hc]; [|done].
  simpl. rewrite filter_cons, lower_char_idem.
  destruct (decide _); [|done]. by rewrite IH.
Qed.

Lemma normalize_clean text : normalize (clean text) = normalize text.
Proof. unfold normalize. by rewrite clean_idem. Qed.

(** X7: only the normal form of the text matters. Letter case and any
    characters that are neither alphanumeric nor whitespace make no
    difference to what [create_sign_video] does, and normalising twice
    is the same as normalising once. *)
Theorem X7_normal_form_decides e text w :
  clean (clean text) = clean text
  ∧ create_sign_video e (clean text) w = create_sign_video e text w.
Proof.
  split; [apply clean_idem|].
  unfold create_sign_video. by rewrite normalize_clean.
Qed.

Example same_video_for_shouting :
  create_sign_video demo_env (py"HELLO, World!!") demo_world
  = create_sign_video demo_env (py"hello world") demo_world.
Proof. by vm_compute. Qed.

Lemma contribution_bound w c : (contribution w c ≤ 6)%nat.
Proof.
  unfold contribution. destruct (decide _); [vm_compute; lia|].
  destruct (dict_mem _ _); vm_compute; lia.
Qed.

Lemma contribution_div3 w c : (3 | contribution w c)%nat.
Proof.
  unfold contribution. destruct (decide _); [by exists 1%nat|].
  destruct (dict_mem _ _); [by exists 2%nat | by exists 0%nat].
Qed.

Lemma sum_contribution_bound w s :
  (sum_list (map (contribution w) s) ≤ 6 * length s)%nat.
Proof.
  induction s as [|c s IH]; simpl; [lia|].
  pose proof (contribution_bound w c). lia.
Qed.

Lemma sum_contribution_div3 w s : (3 | sum_list (map (contribution w) s))%nat.
Proof.
  induction s as [|c s IH]; simpl; [by exists 0%nat|].
  by apply Nat.divide_add_r; [apply contribution_div3|].
Qed.

Lemma clean_length text : (length (clean text) ≤ length text)%nat.
Proof.
  unfold clean, lower. etrans; [apply length_filter|]. by rewrite length_map.
Qed.

(** X8: a video never has more than six frames per character of the
    input text, and its number of frames is a multiple of three. *)
Theorem X8_frame_budget e text w :
  loaded w = true →
  match create_sign_video e text w with
  | (Returns filename, w') =>
      ∃ v, fs w' !! path_join OUTPUT_FOLDER filename = Some (VideoFile v)
           ∧ (length (v_frames v) ≤ 6 * length text)%nat
           ∧ (3 | length (v_frames v))%nat
  | (Raises _, _) => True
  end.
Proof.
  intros Hw. pose proof (create_outcome e text w Hw) as Hc.
  destruct (create_sign_video e text w) as [[file|ex] w']; [|done].
  destruct Hc as [-> Hfs]. eexists. rewrite Hfs.
  split; [apply lookup_insert_eq|]. simpl. rewrite render_length by done.
  split; [|apply sum_contribution_div3].
  etrans; [apply sum_contribution_bound|]. pose proof (clean_length text). lia.
Qed.

Lemma X8_frame_budget_witness :
  match create_sign_video demo_env (py"Good morning!") demo_world with
  | (Returns filename, w') =>
      ∃ v, fs w' !! path_join OUTPUT_FOLDER filename = Some (VideoFile v)
           ∧ (length (v_frames v) ≤ 6 * length (py"Good morning!"))%nat
           ∧ (3 | length (v_frames v))%nat
  | (Raises _, _) => True
  end.
Proof.
  apply (X8_frame_budget demo_env (py"Good morning!") demo_world). reflexivity.
Defined.

Lemma enumerate_from_snoc {A} i (s : list A) c :
  enumerate_from i (s ++ [c]) = enumerate_from i s ++ [(i + Z.of_nat (length s), c)].
Proof.
  revert i. induction s as [|x s IH]; intros i; simpl.
  - by rewrite Z.add_0_r.
  - rewrite IH.
    by replace (i + 1 + Z.of_nat (length s)) with (i + Z.of_nat (S (length s))) by lia.
Qed.

Lemma image_of_key w c img :
  loaded w = true → image_of w c = Some img →
  c ∈ alphabet ∧ c ≠ " "%char.
Proof.
  intros Hw. unfold image_of.
  destruct (dict_get c (sign_images w)) as [l|] eqn:Hget; [|done]. intros _.
  destruct (loaded_entry _ _ _ Hw Hget) as (Ha & _).
  by destruct (alphabet_facts c Ha) as (_ & _ & _ & Hsp).
Qed.

Lemma render_snoc_last e h w tbl s c img :
  c ≠ " "%char → tbl c = Some img →
  last (render e h w tbl (s ++ [c])) = Some (labelled e h w c img).
Proof.
  intros Hc Himg. unfold render, enumerate.
  rewrite enumerate_from_snoc, map_app, concat_app. simpl.
  unfold frames_of at 2. simpl.
  destruct (decide (c = " "%char)); [done|]. rewrite Himg.
  rewrite bool_decide_eq_false_2 by (rewrite length_app; simpl; lia).
  unfold sign_frames, extra_hold. simpl negb. cbv iota.
  rewrite app_nil_r.
  change [labelled e h w c img; labelled e h w c img]
    with ([labelled e h w c img] ++ [labelled e h w c img]).
  rewrite !app_assoc. apply last_snoc.
Qed.

(** X9: when the normalised text ends in a character of the table, the
    video ends on the full labelled image of that character, not on a
    faded frame. *)
Theorem X9_ends_on_full_sign e w text s c img :
  loaded w = true →
  clean text = s ++ [c] →
  image_of w c = Some img →
  existsb (opens e) fourccs = true →
  ∃ w' v,
    create_sign_video e text w = (Returns (output_name e), w')
    ∧ fs w' !! output_path e = Some (VideoFile v)
    ∧ last (v_frames v) = Some (labelled e 640 480 c img).
Proof.
  intros Hw Hclean Himg Hopen.
  destruct (image_of_key w c img Hw Himg) as [Ha Hsp].
  pose proof (image_of_nonempty _ _ _ Himg) as Hne.
  assert (Hn : normalize text = Returns (clean text)).
  { unfold normalize. destruct (is_empty (strip (clean text))) eqn:He; [|done].
    apply strip_empty_iff in He. rewrite Forall_forall in He.
    assert (Hin : c ∈ clean text)
      by (rewrite Hclean; apply elem_of_app; right; left).
    specialize (He c Hin).
    destruct (alphabet_facts c Ha) as (_ & Hs & _). congruence. }
  destruct (refused_or_open e)
    as [Hall | (before & name & cd & after & Hsplit & Hb & Hc)].
  { by destruct (existsb_open e Hopen). }
  eexists _, _. split; [by eapply run_ok|].
  split; [apply lookup_insert_eq|]. simpl. rewrite Hclean.
  by apply render_snoc_last.
Qed.

Lemma X9_ends_on_full_sign_witness :
  ∃ w' v,
    create_sign_video demo_env (py"Hi!") demo_world
    = (Returns (output_name demo_env), w')
    ∧ fs w' !! output_path demo_env = Some (VideoFile v)
    ∧ last (v_frames v)
      = Some (labelled demo_env 640 480 "i"%char
                (Resize (Imread "i.jpg" 512 384) 480 640)).
Proof.
  apply (X9_ends_on_full_sign demo_env demo_world (py"Hi!") (py"h") "i"%char);
    reflexivity.
Defined.

(** ** Writers *)

Lemma constructed_failed cs : constructed (failed cs) = cs.
Proof. induction cs as [|c cs IH]; simpl; [done|]. by rewrite IH. Qed.

Lemma released_failed cs : released (failed cs) = cs.
Proof. induction cs as [|c cs IH]; simpl; [done|]. by rewrite IH. Qed.

Lemma constructed_app l1 l2 : constructed (l1 ++ l2) = constructed l1 ++ constructed l2.
Proof. apply omap_app. Qed.

Lemma released_app l1 l2 : released (l1 ++ l2) = released l1 ++ released l2.
Proof. apply omap_app. Qed.

(** X10: no video writer is left open. Whatever the outcome of a call,
    the writers it released are, in order, the writers it constructed:
    the refused ones right after they were built, the one that opened
    when the frames were written. *)
Theorem X10_every_writer_released e text w :
  loaded w = true →
  ∃ calls,
    cv_log (create_sign_video e text w).2 = cv_log w ++ calls
    ∧ released calls = constructed calls.
Proof.
  intros Hw.
  destruct (run_cases e text w Hw)
    as [[_ ->] | [(_ & _ & ->) | [(_ & _ & _ & ->)
        | (_ & _ & before & name & c & after & _ & _ & _ & ->)]]].
  - exists []. by rewrite app_nil_r.
  - exists []. by rewrite app_nil_r.
  - exists (failed fourccs). split; [done|].
    by rewrite constructed_failed, released_failed.
  - eexists. split; [reflexivity|].
    by rewrite constructed_app, released_app, constructed_failed, released_failed.
Qed.

Lemma X10_every_writer_released_witness :
  ∃ calls,
    cv_log (create_sign_video demo_env (py"ok") demo_world).2
    = cv_log demo_world ++ calls
    ∧ released calls = constructed calls.
Proof.
  apply (X10_every_writer_released demo_env (py"ok") demo_world). reflexivity.
Defined.

(** ** Speech requests *)

Lemma wav_path_differs (name : string) : name ≠ (name ++ "_fixed.wav")%string.
Proof. induction name as [|c name IH]; simpl; [done|]. intros [= H]. by apply IH. Qed.

Lemma speech_to_text_fresh sp path w :
  from_file sp path = Returns tt →
  record sp (path ++ "_fixed.wav")%string = Returns tt →
  fs w !! (path ++ "_fixed.wav")%string = None →
  speech_to_text sp path w
  = (transcript (recognize_google sp (path ++ "_fixed.wav")%string), w).
Proof.
  intros Hf Hr Hfresh. rewrite speech_to_text_run, Hf. simpl. rewrite Hr.
  f_equal. apply world_eq; simpl; try done. by apply delete_insert_id.
Qed.

(** X11: once the audio has been decoded and read, [speech_to_text]
    returns the recognised text in lower case and stripped, turns an
    unintelligible recording and a service error into a [ValueError]
    with a message of its own, and passes any other exception on; in
    each case the re-encoded WAV is gone afterwards and nothing else in
    the world has changed. *)
Theorem X11_speech_to_text_outcomes sp path w :
  from_file sp path = Returns tt →
  record sp (path ++ "_fixed.wav")%string = Returns tt →
  speech_to_text sp path w
  = (match recognize_google sp (path ++ "_fixed.wav")%string with
     | Returns text => Returns (strip (lower text))
     | Raises UnknownValueError =>
         Raises (ValueError "Could not understand audio")
     | Raises (RequestError msg) =>
         Raises (ValueError ("Google Speech Recognition error: " ++ msg))
     | Raises ex => Raises ex
     end,
     set_fs (delete (path ++ "_fixed.wav")%string) w).
Proof.
  intros Hf Hr. rewrite speech_to_text_run, Hf. simpl. rewrite Hr.
  f_equal. apply world_eq; simpl; try done. apply delete_insert_eq.
Qed.

Lemma X11_speech_to_text_outcomes_witness :
  speech_to_text hears_hello upload_path upload_world
  = (Returns (py"hello"),
     set_fs (delete (upload_path ++ "_fixed.wav")%string) upload_world).
Proof.
  apply (X11_speech_to_text_outcomes hears_hello upload_path upload_world);
    reflexivity.
Defined.

(** X12: once the upload has been copied into its temp file, that file
    never outlives the request: however transcription and composition
    end, it is not on disk when [/speech-to-sign] answers. *)
Theorem X12_upload_removed e sp rq w name :
  tmp_file rq = Returns name →
  read_upload rq = Returns tt →
  bool_decide (name = ""%string) = false →
  fs (speech_to_sign e sp rq w).2 !! name = None.
Proof.
  intros Ht Hr Hname. apply bool_decide_eq_false in Hname.
  rewrite speech_to_sign_world. unfold speech_to_sign_body. rewrite Ht, Hr.
  destruct (transcribe_and_sign e sp name _) as [r w1]. simpl.
  rewrite (bool_decide_eq_true_2 (name ≠ ""%string)) by done. simpl.
  destruct (bool_decide (is_Some (fs w1 !! name))) eqn:He.
  - simpl. apply lookup_delete_eq.
  - apply bool_decide_eq_false in He. by apply eq_None_not_Some.
Qed.

Lemma X12_upload_removed_witness :
  fs (speech_to_sign demo_env read_fails demo_upload demo_world).2 !! upload_path
  = None.
Proof.
  apply (X12_upload_removed demo_env read_fails demo_upload demo_world upload_path);
    reflexivity.
Defined.

(** Composition does not look at the disk: on a world that differs only
    in its files it has the same outcome and the same effect. *)
Lemma create_set_fs e text f w :
  loaded w = true →
  ∃ r W (g : gmap string file → gmap string file),
    create_sign_video e text w = (r, W)
    ∧ fs W = g (fs w)
    ∧ create_sign_video e text (set_fs f w)
      = (r, {| heap := heap W; sign_images := sign_images W;
               fs := g (f (fs w)); cv_log := cv_log W |})
    ∧ (∀ m p, p ≠ output_path e → g m !! p = m !! p)
    ∧ (∀ m p, p ≠ output_path e → delete p (g m) = g (delete p m)).
Proof.
  intros Hw.
  assert (Hw0 : loaded (set_fs f w) = true) by exact Hw.
  destruct (run_cases e text w Hw)
    as [[He Hr] | [(Hne & Hs & Hr) | [(Hne & Hs & Hall & Hr)
        | (Hne & Hs & before & name & c & after & Hsplit & Hb & Hc & Hr)]]].
  - eexists _, _, (λ m, m). split; [exact Hr|]. split; [done|].
    split; [by rewrite run_not_loaded|done].
  - eexists _, _, (λ m, m). split; [exact Hr|]. split; [done|].
    split; [|done]. rewrite (run_blank e text (set_fs f w) (ValueError "No valid characters in text")); [done..|].
    unfold normalize. by rewrite Hs.
  - eexists _, _, (λ m, m). split; [exact Hr|]. split; [done|].
    split; [|done].
    rewrite (run_refused e text (set_fs f w) (clean text)); [done..| |done].
    unfold normalize. by rewrite Hs.
  - eexists _, _, (λ m, <[output_path e := _]> m).
    split; [exact Hr|]. split; [done|]. split; [|split].
    + rewrite (run_ok e text (set_fs f w) (clean text) before name c after);
        [done..| |done|done|done].
      unfold normalize. by rewrite Hs.
    + intros m p Hp. by apply lookup_insert_ne.
    + intros m p Hp. by apply delete_insert_ne.
Qed.

Lemma upload_then_transcribe sp name t w :
  from_file sp name = Returns tt →
  record sp (name ++ "_fixed.wav")%string = Returns tt →
  recognize_google sp (name ++ "_fixed.wav")%string = Returns t →
  fs w !! (name ++ "_fixed.wav")%string = None →
  speech_to_text sp name (set_fs (λ d, <[name := UploadFile]> d) w)
  = (Returns (strip (lower t)), set_fs (λ d, <[name := UploadFile]> d) w).
Proof.
  intros Hf Hr Hg Hwav. rewrite speech_to_text_fresh; [by rewrite Hg|done..|].
  simpl. rewrite lookup_insert_ne; [done|]. apply wav_path_differs.
Qed.

(** X13: a recording in which the service hears nothing but whitespace
    is answered with 500 "No speech detected"; no video is composed,
    and the upload and the re-encoded WAV are gone, so the world is
    exactly as before the request. *)
Theorem X13_no_speech_detected e sp rq w name t :
  tmp_file rq = Returns name →
  read_upload rq = Returns tt →
  from_file sp name = Returns tt →
  record sp (name ++ "_fixed.wav")%string = Returns tt →
  recognize_google sp (name ++ "_fixed.wav")%string = Returns t →
  is_empty (strip (lower t)) = true →
  bool_decide (name = ""%string) = false →
  fs w !! name = None →
  fs w !! (name ++ "_fixed.wav")%string = None →
  speech_to_sign e sp rq w = (HTTPError 500 "No speech detected", w).
Proof.
  intros Ht Hu Hf Hr Hg He Hname Hfresh Hwav.
  apply bool_decide_eq_false in Hname.
  unfold speech_to_sign, speech_to_sign_body. rewrite Ht, Hu.
  unfold transcribe_and_sign, mbind, M_bind.
  rewrite (upload_then_transcribe sp name t w) by done. rewrite He. simpl.
  rewrite (bool_decide_eq_true_2 (name ≠ ""%string)) by done.
  rewrite (bool_decide_eq_true_2 (is_Some _))
    by (rewrite lookup_insert_eq; eauto).
  simpl. f_equal. apply world_eq; simpl; try done. by apply delete_insert_id.
Qed.

Lemma X13_no_speech_detected_witness :
  speech_to_sign demo_env hears_nothing demo_upload demo_world
  = (HTTPError 500 "No speech detected", demo_world).
Proof.
  apply (X13_no_speech_detected demo_env hears_nothing demo_upload demo_world
           upload_path (py"  ")); reflexivity.
Defined.

(** X14: saying it is the same as typing it. When every library call
    succeeds and the service hears a text that is not blank,
    [/speech-to-sign] answers what composing the lower-cased, stripped
    transcript answers (200 with the file name and that text, or 500
    with the error text), and leaves the world in the state that
    composing it from the start leaves: the video, and neither the
    upload nor the WAV. *)
Theorem X14_speech_like_text e sp rq w name t :
  loaded w = true →
  tmp_file rq = Returns name →
  read_upload rq = Returns tt →
  from_file sp name = Returns tt →
  record sp (name ++ "_fixed.wav")%string = Returns tt →
  recognize_google sp (name ++ "_fixed.wav")%string = Returns t →
  is_empty (strip (lower t)) = false →
  bool_decide (name = ""%string) = false →
  bool_decide (name = output_path e) = false →
  fs w !! name = None →
  fs w !! (name ++ "_fixed.wav")%string = None →
  speech_to_sign e sp rq w
  = match create_sign_video e (strip (lower t)) w with
    | (Returns file, w') => (Ok200 file (strip (lower t)), w')
    | (Raises ex, w') => (HTTPError 500 (exn_str ex), w')
    end.
Proof.
  intros Hw Ht Hu Hf Hr Hg He Hname Hout Hfresh Hwav.
  apply bool_decide_eq_false in Hname. apply bool_decide_eq_false in Hout.
  destruct (create_set_fs e (strip (lower t)) (λ d, <[name := UploadFile]> d) w Hw)
    as (r & W & g & Hrun & HfsW & Hrun0 & Hg1 & Hg2).
  unfold speech_to_sign, speech_to_sign_body. rewrite Ht, Hu.
  unfold transcribe_and_sign, mbind, M_bind.
  rewrite (upload_then_transcribe sp name t w) by done. rewrite He.
  rewrite Hrun0, Hrun.
  assert (Hfinal : ∀ w1, heap w1 = heap W → sign_images w1 = sign_images W →
            cv_log w1 = cv_log W → fs w1 = g (<[name := UploadFile]> (fs w)) →
            (if bool_decide (name ≠ ""%string)
                && bool_decide (is_Some (fs w1 !! name))
             then set_fs (delete name) w1 else w1) = W).
  { intros w1 Hh Hs Hl Hfs.
    rewrite (bool_decide_eq_true_2 (name ≠ ""%string)) by done.
    rewrite (bool_decide_eq_true_2 (is_Some _))
      by (rewrite Hfs, Hg1, lookup_insert_eq; eauto).
    simpl. apply world_eq; simpl; try done.
    rewrite Hfs, Hg2, delete_insert_id; done. }
  destruct r as [file|ex]; simpl; f_equal;
    exact (Hfinal (World (heap W) (sign_images W)
                     (g (<[name := UploadFile]> (fs w))) (cv_log W))
             eq_refl eq_refl eq_refl eq_refl).
Qed.

Lemma X14_speech_like_text_witness :
  speech_to_sign demo_env hears_hello demo_upload demo_world
  = match create_sign_video demo_env (strip (lower (py"Hello  "))) demo_world with
    | (Returns file, w') => (Ok200 file (strip (lower (py"Hello  "))), w')
    | (Raises ex, w') => (HTTPError 500 (exn_str ex), w')
    end.
Proof.
  apply (X14_speech_like_text demo_env hears_hello demo_upload demo_world
           upload_path (py"Hello  ")); reflexivity.
Defined.

(** X15: when the recognition call raises, [/speech-to-sign] answers
    500 with the text of the error as [speech_to_text] reports it
    ("Could not understand audio" for an unintelligible recording,
    "Google Speech Recognition error: ..." for a service error, the
    exception's own text otherwise); no video is composed and the world
    is exactly as before the request. *)
Theorem X15_recognition_error_reported e sp rq w name ex :
  tmp_file rq = Returns name →
  read_upload rq = Returns tt →
  from_file sp name = Returns tt →
  record sp (name ++ "_fixed.wav")%string = Returns tt →
  recognize_google sp (name ++ "_fixed.wav")%string = Raises ex →
  bool_decide (name = ""%string) = false →
  fs w !! name = None →
  fs w !! (name ++ "_fixed.wav")%string = None →
  speech_to_sign e sp rq w
  = (HTTPError 500
       match ex with
       | UnknownValueError => "Could not understand audio"
       | RequestError msg => "Google Speech Recognition error: " ++ msg
       | _ => exn_str ex
       end, w).
Proof.
  intros Ht Hu Hf Hr Hg Hname Hfresh Hwav.
  apply bool_decide_eq_false in Hname.
  unfold speech_to_sign, speech_to_sign_body. rewrite Ht, Hu.
  unfold transcribe_and_sign, mbind, M_bind.
  rewrite speech_to_text_fresh; [|done..|];
    [|simpl; rewrite lookup_insert_ne; [done | apply wav_path_differs]].
  rewrite Hg.
  assert (Hw : (if bool_decide (name ≠ ""%string)
                   && bool_decide (is_Some
                        (fs (set_fs (λ d, <[name := UploadFile]> d) w) !! name))
                then set_fs (delete name)
                       (set_fs (λ d, <[name := UploadFile]> d) w)
                else set_fs (λ d, <[name := UploadFile]> d) w) = w).
  { rewrite (bool_decide_eq_true_2 (name ≠ ""%string)) by done.
    rewrite (bool_decide_eq_true_2 (is_Some _))
      by (simpl; rewrite lookup_insert_eq; eauto).
    simpl. apply world_eq; simpl; try done. by apply delete_insert_id. }
  destruct ex; simpl transcript; cbv beta iota; simpl exn_str;
    f_equal; exact Hw.
Qed.

Lemma X15_recognition_error_reported_witness :
  speech_to_sign demo_env
    {| from_file := λ _, Returns tt; record := λ _, Returns tt;
       recognize_google := λ _, Raises (RequestError "connection timed out") |}
    demo_upload demo_world
  = (HTTPError 500 "Google Speech Recognition error: connection timed out",
     demo_world).
Proof.
  apply (X15_recognition_error_reported demo_env
           {| from_file := λ _, Returns tt; record := λ _, Returns tt;
              recognize_google := λ _, Raises (RequestError "connection timed out") |}
           demo_upload demo_world upload_path
           (RequestError "connection timed out")); reflexivity.
Defined.
